(** * The HTML tag collector and the Common Crawl manager, verified

    A shallow embedding of [html_tag_collector/collector.py] and of
    [common_crawler/crawler.py], with the properties the design document
    states about them.

    Layout: Python values and exceptions; string methods; the collector
    (Response Filter, Fetch Engine, Render Stage, Feature Extractor, Batch
    Orchestrator); the crawler; then the lemmas and theorems. *)

From Stdlib Require Import ZArith Ascii String Strings.Byte.
From stdpp Require Import base tactics option list gmap strings sorting.

Local Open Scope Z_scope.

(* ===================================================================== *)
(** * Python values                                                       *)
(* ===================================================================== *)

(** A Python [str] is a sequence of characters.  The model takes the
    characters from the Latin-1 range, on which the classes used by the
    sources ([str.isspace], the [\d] of a [str] pattern) are exactly the
    ones written below. *)
Abbreviation str := (list ascii).

Definition lit (s : string) : str := list_ascii_of_string s.

(** The exception classes that the two source files name, raise or let
    escape.  [CancelledError] derives from [BaseException]; all the others
    derive from [Exception]. *)
Inductive exn : Type :=
  | RequestsSSLError          (* requests.exceptions.SSLError, a ConnectionError *)
  | SslSSLError               (* ssl.SSLError *)
  | ConnectionError           (* requests.exceptions.ConnectionError *)
  | LocationParseError        (* urllib3.exceptions.LocationParseError *)
  | ReadTimeout               (* requests.exceptions.ReadTimeout *)
  | RequestException          (* any other exception of a request *)
  | PageError                 (* pyppeteer.errors.PageError *)
  | NetworkError              (* pyppeteer.errors.NetworkError *)
  | ParserRejectedMarkup      (* bs4.builder.ParserRejectedMarkup *)
  | JSONDecodeError           (* json.JSONDecodeError *)
  | SchemaError               (* polars: frames of different schemas *)
  | CancelledError            (* asyncio.CancelledError *)
  | AssertionError
  | AttributeError
  | IndexError
  | KeyError
  | TypeError
  | ZeroDivisionError
  | ValueError (msg : string).

Global Instance exn_eq_dec : EqDecision exn.
Proof. solve_decision. Defined.

(** [isinstance(e, Exception)]. *)
Definition is_Exception (e : exn) : bool :=
  match e with
  | CancelledError => false
  | _ => true
  end.

(** A call either returns a value or raises. *)
Inductive result (A : Type) : Type :=
  | Ok (a : A)
  | Raise (e : exn).
Global Arguments Ok {A} a.
Global Arguments Raise {A} e.

Definition bind {A B} (m : result A) (k : A -> result B) : result B :=
  match m with
  | Ok a => k a
  | Raise e => Raise e
  end.

Notation "x <- m ;; k" := (bind m (fun x => k))
  (at level 100, m at next level, right associativity,
   format "'[v' x  <-  m  ;;  '/' k ']'").

Definition is_Ok {A} (m : result A) : bool :=
  match m with Ok _ => true | Raise _ => false end.

(** Run [f] over a list from left to right; the first raise ends the run. *)
Fixpoint for_each {A B} (f : A -> result B) (l : list A) : result (list B) :=
  match l with
  | [] => Ok []
  | x :: l' => y <- f x ;; ys <- for_each f l' ;; Ok (y :: ys)
  end.


(** [l[i]] on a list, for an index that is not negative. *)
Definition list_getitem {A} (l : list A) (i : nat) : result A :=
  match l !! i with
  | Some x => Ok x
  | None => Raise IndexError
  end.

(* ===================================================================== *)
(** * String methods                                                      *)
(* ===================================================================== *)

Module Py.

(** [c1 == c2] on characters. *)
Definition ch_eqb (c1 c2 : ascii) : bool := Ascii.eqb c1 c2.

(** [s.startswith(p)]. *)
Fixpoint startswith (p s : str) : bool :=
  match p, s with
  | [], _ => true
  | _ :: _, [] => false
  | a :: p', b :: s' => ch_eqb a b && startswith p' s'
  end.

(** [s.endswith(p)]. *)
Definition endswith (p s : str) : bool := startswith (rev p) (rev s).

(** [s.removesuffix(p)]. *)
Definition removesuffix (p s : str) : str :=
  match p with
  | [] => s
  | _ => if endswith p s then take (length s - length p)%nat s else s
  end.

(** [s.removeprefix(p)]. *)
Definition removeprefix (p s : str) : str :=
  if startswith p s then drop (length p) s else s.

(** [sub in s] for strings. *)
Fixpoint str_in (sub s : str) : bool :=
  startswith sub s ||
  match s with
  | [] => false
  | _ :: s' => str_in sub s'
  end.

(** [c in s] for a single character. *)
Definition ch_in (c : ascii) (s : str) : bool := existsb (ch_eqb c) s.

(** [str.isspace] on one character of the Latin-1 range: the controls
    U+0009..U+000D and U+001C..U+001F, the space, U+0085 and U+00A0. *)
Definition isspace (c : ascii) : bool :=
  let n := N_of_ascii c in
  ((9 <=? n) && (n <=? 13) || (28 <=? n) && (n <=? 32) || (n =? 133) || (n =? 160))%N.

(** [s.split()]: the maximal runs of characters that are not whitespace.
    [split_from w s] is the scan with [w] the word read so far, reversed. *)
Fixpoint split_from (w : str) (s : str) : list str :=
  match s with
  | [] => match w with [] => [] | _ => [rev w] end
  | c :: s' =>
      if isspace c
      then match w with
           | [] => split_from [] s'
           | _ => rev w :: split_from [] s'
           end
      else split_from (c :: w) s'
  end.

Definition split (s : str) : list str := split_from [] s.

(** [s.lstrip()], [s.rstrip()] and [s.strip()]. *)
Fixpoint lstrip (s : str) : str :=
  match s with
  | c :: s' => if isspace c then lstrip s' else s
  | [] => []
  end.

Definition rstrip (s : str) : str := rev (lstrip (rev s)).

Definition strip (s : str) : str := rstrip (lstrip s).

(** [sep.join(l)]. *)
Fixpoint join (sep : str) (l : list str) : str :=
  match l with
  | [] => []
  | [x] => x
  | x :: l' => x ++ sep ++ join sep l'
  end.

(** [s.split(c)] for a one-character separator: the fields between the
    separators, empty fields included. *)
Fixpoint split_on_from (c : ascii) (w : str) (s : str) : list str :=
  match s with
  | [] => [rev w]
  | d :: s' =>
      if ch_eqb d c then rev w :: split_on_from c [] s'
      else split_on_from c (d :: w) s'
  end.

Definition split_on (c : ascii) (s : str) : list str := split_on_from c [] s.

(** [s.find(c)] as the part before the first [c] and the part from it on:
    [break_at p s = (s[:i], s[i:])] with [i] the first index whose
    character satisfies [p], and [(s, empty)] when there is none. *)
Fixpoint break_at (p : ascii -> bool) (s : str) : str * str :=
  match s with
  | [] => ([], [])
  | c :: s' =>
      if p c then ([], s)
      else let '(a, b) := break_at p s' in (c :: a, b)
  end.

(** The decimal digits of the Latin-1 range. *)
Definition is_digit (c : ascii) : bool :=
  let n := N_of_ascii c in ((48 <=? n) && (n <=? 57))%N.

(** [len(s)] as a Python integer. *)
Definition len {A} (l : list A) : Z := Z.of_nat (length l).

End Py.

(* ===================================================================== *)
(** * html_tag_collector/collector.py                                     *)
(* ===================================================================== *)

Module Collector.
Import Py.

(** ** Responses *)

(** What [session.get] returns: an [HTMLResponse] of requests_html, with
    its status code, its headers (a case-insensitive dictionary, keys kept
    in lower case), the bytes of its body and the page [response.html],
    whose text [response.html.html] the Render Stage may replace. *)
Record HTMLResponse : Type := {
  hr_status_code : Z;
  hr_headers : gmap str str;
  hr_content : list byte;
  hr_html : str;
}.

(** A response is either such a fetched response or the object that
    [response_valid] builds, [requests.Response()] with only its
    [status_code] assigned: it has no headers, its [content] is [None]
    (there is no body to read) and it has no [html] attribute. *)
Inductive Response : Type :=
  | Fetched (r : HTMLResponse)
  | Reduced (status_code : Z).

Definition status_code (r : Response) : Z :=
  match r with
  | Fetched h => hr_status_code h
  | Reduced c => c
  end.

(** [response.ok]: [raise_for_status] raises for the client and server
    error codes, 400 to 599, and for no other code. *)
Definition ok (r : Response) : bool :=
  negb ((400 <=? status_code r) && (status_code r <? 600)).

(** [response.headers]. *)
Definition headers (r : Response) : gmap str str :=
  match r with
  | Fetched h => hr_headers h
  | Reduced _ => ∅
  end.

(** [response.content]. *)
Definition content (r : Response) : option (list byte) :=
  match r with
  | Fetched h => Some (hr_content h)
  | Reduced _ => None
  end.

(** [d[key]] on a dictionary. *)
Definition getitem {V} (d : gmap str V) (key : str) : result V :=
  match d !! key with
  | Some v => Ok v
  | None => Raise KeyError
  end.

(** [len(response.content)]; [len(None)] is a [TypeError]. *)
Definition len_content (r : Response) : result Z :=
  match content r with
  | Some b => Ok (len b)
  | None => Raise TypeError
  end.

(** [response.html.html]; a plain [Response] has no [html]. *)
Definition html_text (r : Response) : result str :=
  match r with
  | Fetched h => Ok (hr_html h)
  | Reduced _ => Raise AttributeError
  end.

(** ** Response Filter *)

Definition filtered_types : list str :=
  lit <$> ["pdf"; "excel"; "msword"; "image"; "rtf"; "zip"; "octet"; "csv"; "json"]%string.

(** [any(filtered_type in content_type for filtered_type in [...])]. *)
Definition unreadable_type (content_type : str) : bool :=
  existsb (fun filtered_type => str_in filtered_type content_type) filtered_types.

(** The test of [response_valid], [A and B or C and D or E and F],
    evaluated from left to right as Python does. *)
Definition must_discard (response : option Response) (content_type : option str)
  : result bool :=
  too_large <- match response with
               | Some r => n <- len_content r ;; Ok (10000000 <? n)
               | None => Ok false
               end ;;
  if too_large then Ok true
  else if match content_type with
          | Some ct => unreadable_type ct
          | None => false
          end
  then Ok true
  else match response with
       | Some r => Ok (negb (ok r))
       | None => Ok false
       end.

(** [new_response = requests.Response();
     new_response.status_code = response.status_code]. *)
Definition discard (response : option Response) : result Response :=
  match response with
  | Some r => Ok (Reduced (status_code r))
  | None => Raise AttributeError      (* None has no status_code *)
  end.

Definition response_valid (response : option Response) (content_type : option str)
    (url : option str) : result (option Response) :=
  cond <- must_discard response content_type ;;
  if cond then new_response <- discard response ;; Ok (Some new_response)
  else Ok response.

(** ** Fetch Engine *)

(** One [await session.get(...)]: a response or an exception. *)
Inductive attempt : Type :=
  | Responds (r : HTMLResponse)
  | Fails (e : exn).

(** The dictionary [{"index": ..., "response": ...}]. *)
Record Outcome : Type := {
  index : nat;
  response : option Response;
}.

(** How a [res.html.arender()] task behaves, counted in the 0.1 s sleeps
    of the polling loop: it is done after [polls] sleeps, with the rendered
    page or with an exception, or it never is. *)
Inductive rendering : Type :=
  | Completes (polls : nat) (html : str)
  | Breaks (polls : nat) (e : exn)
  | Hangs.

(** Parsers of BeautifulSoup that [get_parser] selects. *)
Inductive parser : Type := lxml | lxml_xml.

Inductive header_tag : Type := h1 | h2 | h3 | h4 | h5 | h6.

(** A header element: [header.get_text(" ", strip=True)] and whether
    [header.a] finds a link inside it. *)
Record Header : Type := {
  header_text : str;
  header_a : bool;
}.

(** What the collector reads from a parsed document. *)
Record Soup : Type := {
  soup_title : option (option str);      (* soup.title, then its .string *)
  soup_meta : option (option str);       (* the description meta tag, then its content *)
  soup_find_all : header_tag -> list Header;
  soup_divs : list str;                  (* div.get_text(" ", strip=True), document order *)
}.

(** The collaborators of the collector: the network session, the order in
    which [gather] hands back the finished tasks, the browser, the root
    title cache and the markup parser. *)
Record Env : Type := {
  session_get : option str -> bool -> attempt;   (* url, verify *)
  gather : list Outcome -> list Outcome;
  arender : HTMLResponse -> rendering;
  get_title : str -> str;
  BeautifulSoup : str -> parser -> result Soup;
}.

(** [gather] returns every result once, in some order. *)
Definition gathers_all (E : Env) : Prop :=
  forall l, gather E l ≡ₚ l.

Definition dot_json : str := lit ".json".
Definition content_type_key : str := lit "content-type".

(** The [try] statement of [get_response] up to its [finally]: the values
    of [url] and [response] when the [finally] clause starts, and the
    exception still in flight, if any. *)
Definition try_get (E : Env) (url : option str)
  : option str * option HTMLResponse * option exn :=
  match session_get E url true with
  | Responds r => (url, Some r, None)
  | Fails e =>
      match e with
      | RequestsSSLError | SslSSLError =>
          (* retry without SSL verification *)
          match session_get E url false with
          | Responds r => (url, Some r, None)
          | Fails e' => (url, None, Some e')
          end
      | ConnectionError =>
          match url with
          | None => (url, None, Some TypeError)        (* None[4] *)
          | Some u =>
              match u !! 4%nat with
              | None => (url, None, Some IndexError)   (* url[4] out of range *)
              | Some c =>
                  if negb (ch_eqb c "s")
                  then
                    let u' := take 4 u ++ lit "s" ++ drop 4 u in
                    (* retry with https *)
                    match session_get E (Some u') true with
                    | Responds r => (Some u', Some r, None)
                    | Fails e' => (Some u', None, Some e')
                    end
                  else (url, None, None)
              end
          end
      | LocationParseError | ReadTimeout => (url, None, None)
      | _ => if is_Exception e then (url, None, None) else (url, None, Some e)
      end
  end.

(** [get_response]: the [finally] clause ends in [return], which drops the
    exception in flight; only an exception of the clause itself could
    leave the function. *)
Definition get_response (E : Env) (url : option str) (index : nat) : result Outcome :=
  let url := removesuffix dot_json <$> url in
  let '(url, response, in_flight) := try_get E url in
  let content_type :=
    match response with
    | Some r => hr_headers r !! content_type_key     (* KeyError: pass *)
    | None => None                                   (* AttributeError: pass *)
    end in
  response <- response_valid (Fetched <$> response) content_type url ;;
  Ok {| index := index; response := response |}.

(** [enumerate(l)] mapped through [f]. *)
Definition run_get_response (E : Env) (urls : list (option str)) : result (list Outcome) :=
  results <- for_each (fun '(i, url) => get_response E url i) (imap pair urls) ;;
  Ok (gather E results).

(** ** Render Stage *)

(** The dictionary [{"index": ..., "url": ..., "response": ...}]; its
    [url] is a row of the url column, a 1-tuple, kept here as its only
    component. *)
Record UrlResponse : Type := {
  ur_index : nat;
  ur_url : option str;
  ur_response : option Response;
}.

(** [task.done()] after [time_elapsed] sleeps. *)
Definition done (task : rendering) (time_elapsed : nat) : bool :=
  match task with
  | Completes polls _ | Breaks polls _ => (polls <=? time_elapsed)%nat
  | Hangs => false
  end.

(** The polling loop, [while not task.done(): ...]: the value of
    [time_elapsed] when the loop is left and whether it was left through
    [task.cancel(); break].  [fuel] bounds the number of rounds. *)
Fixpoint poll (fuel : nat) (task : rendering) (time_elapsed : nat) : option (nat * bool) :=
  match fuel with
  | O => None
  | S fuel' =>
      if done task time_elapsed then Some (time_elapsed, false)
      else
        let time_elapsed := S time_elapsed in      (* += 1; await asyncio.sleep(0.1) *)
        if (150 <? time_elapsed)%nat then Some (time_elapsed, true)
        else poll fuel' task time_elapsed
  end.

(** More rounds than the loop can take (see [poll_enough]). *)
Definition polling_rounds : nat := 152.

(** [await task] once the loop is left at [time_elapsed]: a cancelled
    task raises [CancelledError]; [task.cancel()] does nothing to a task
    that is already done. *)
Definition await_task (task : rendering) (time_elapsed : nat) (cancel_called : bool)
  : result str :=
  if cancel_called && negb (done task time_elapsed) then Raise CancelledError
  else match task with
       | Completes _ html => Ok html
       | Breaks _ e => Raise e
       | Hangs => Raise CancelledError   (* a task that hangs only leaves the loop cancelled *)
       end.

(** The body of the loop of [render_js] for a response that has a page:
    the response afterwards. *)
Definition render_one (E : Env) (r : HTMLResponse) : result HTMLResponse :=
  let task := arender E r in
  match poll polling_rounds task 0 with
  | None => Ok r                         (* not reached: the loop ends, [poll_enough] *)
  | Some (time_elapsed, cancel_called) =>
      match await_task task time_elapsed cancel_called with
      | Ok html =>
          Ok {| hr_status_code := hr_status_code r; hr_headers := hr_headers r;
                hr_content := hr_content r; hr_html := html |}
      | Raise e =>
          match e with
          | PageError | NetworkError => Ok r
          | _ => if is_Exception e then Ok r
                 else match e with
                      | CancelledError => Ok r
                      | _ => Raise e
                      end
          end
      end
  end.

(** One round of the loop of [render_js]: the entry afterwards. *)
Definition render_item (E : Env) (url_response : UrlResponse) : result UrlResponse :=
  match ur_response url_response with
  | None => Ok url_response                                     (* continue *)
  | Some res =>
      if negb (ok res) then Ok url_response                     (* continue *)
      else match res with
           | Reduced _ => Ok url_response                       (* AttributeError: continue *)
           | Fetched r =>
               r' <- render_one E r ;;
               Ok {| ur_index := ur_index url_response; ur_url := ur_url url_response;
                     ur_response := Some (Fetched r') |}
           end
  end.

Definition render_js (E : Env) (urls_responses : list UrlResponse)
  : result (list UrlResponse) :=
  for_each (render_item E) urls_responses.

(** ** urllib.parse.urlparse, as far as its [path] goes (CPython 3.10) *)

Definition is_upper (c : ascii) : bool :=
  let n := N_of_ascii c in ((65 <=? n) && (n <=? 90))%N.
Definition is_lower (c : ascii) : bool :=
  let n := N_of_ascii c in ((97 <=? n) && (n <=? 122))%N.
Definition lower (c : ascii) : ascii :=
  if is_upper c then ascii_of_N (N_of_ascii c + 32) else c.

Definition scheme_char (c : ascii) : bool :=
  is_lower c || is_upper c || is_digit c || ch_in c (lit "+-.").

(** The tab, CR and LF that [urlsplit] removes from the URL. *)
Definition unsafe_char (c : ascii) : bool :=
  let n := N_of_ascii c in ((n =? 9) || (n =? 13) || (n =? 10))%N.

(** [i = url.find(':')] and the scheme before it, when [i > 0] and the
    characters before it are all scheme characters. *)
Definition split_scheme (url : str) : str * str :=
  match break_at (ch_eqb ":") url with
  | (c :: a, _ :: rest) =>
      if forallb scheme_char (c :: a) then (lower <$> (c :: a), rest) else ([], url)
  | _ => ([], url)
  end.

(** [_splitnetloc(url, 2)] behind a leading [//], and the check of the
    brackets of the host. *)
Definition split_netloc (url : str) : result (str * str) :=
  if startswith (lit "//") url then
    let '(netloc, rest) := break_at (fun c => ch_in c (lit "/?#")) (drop 2 url) in
    if ch_in "[" netloc && negb (ch_in "]" netloc)
       || ch_in "]" netloc && negb (ch_in "[" netloc)
    then Raise (ValueError "Invalid IPv6 URL")
    else Ok (netloc, rest)
  else Ok ([], url).

(** [urlsplit(url)]: its scheme and its path. *)
Definition urlsplit (url : str) : result (str * str) :=
  let url := filter (fun c => negb (unsafe_char c)) url in
  let '(scheme, url) := split_scheme url in
  netloc_url <- split_netloc url ;;
  let url := (break_at (ch_eqb "#") netloc_url.2).1 in
  let url := (break_at (ch_eqb "?") url).1 in
  Ok (scheme, url).

Definition uses_params : list str :=
  [] :: (lit <$> ["ftp"; "hdl"; "prospero"; "http"; "imap"; "https"; "shttp"; "rtsp";
                 "rtspu"; "sip"; "sips"; "mms"; "sftp"; "tel"]%string).

(** [_splitparams(url)[0]]: the path up to the first [;] of its last
    segment. *)
Definition splitparams (url : str) : str :=
  let '(last_rev, dir_rev) := break_at (ch_eqb "/") (rev url) in
  rev dir_rev ++ (break_at (ch_eqb ";") (rev last_rev)).1.

(** [urlparse(url).path]. *)
Definition urlparse_path (url : str) : result str :=
  scheme_url <- urlsplit url ;;
  let '(scheme, url) := scheme_url in
  if bool_decide (scheme ∈ uses_params) && ch_in ";" url
  then Ok (splitparams url)
  else Ok url.

(** ** Feature Extractor *)

(** Modelled from the spec: the [Tags] data class of [DataClassTags],
    which is not among the sources.  The feature record has the fields
    below; they "default to empty string / -1", and [index] is unset until
    [parse_response] assigns it. *)
Record Tags : Type := {
  tg_index : option nat;
  tg_url : str;
  tg_url_path : str;
  tg_html_title : str;
  tg_meta_description : str;
  tg_root_page_title : str;
  tg_http_response : Z;
  tg_h1 : str;
  tg_h2 : str;
  tg_h3 : str;
  tg_h4 : str;
  tg_h5 : str;
  tg_h6 : str;
  tg_div_text : str;
}.

Definition new_Tags : Tags := {|
  tg_index := None; tg_url := []; tg_url_path := []; tg_html_title := [];
  tg_meta_description := []; tg_root_page_title := []; tg_http_response := -1;
  tg_h1 := []; tg_h2 := []; tg_h3 := []; tg_h4 := []; tg_h5 := []; tg_h6 := [];
  tg_div_text := [];
|}.

(** The values of a row: [None], an integer or a string. *)
Inductive value : Type :=
  | VNone
  | VInt (n : Z)
  | VStr (s : str).

Definition of_int (n : option nat) : value :=
  match n with Some i => VInt (Z.of_nat i) | None => VNone end.

(** [asdict(tags)]. *)
Definition asdict (t : Tags) : gmap string value :=
  list_to_map [
    ("index", of_int (tg_index t)); ("url", VStr (tg_url t));
    ("url_path", VStr (tg_url_path t)); ("html_title", VStr (tg_html_title t));
    ("meta_description", VStr (tg_meta_description t));
    ("root_page_title", VStr (tg_root_page_title t));
    ("http_response", VInt (tg_http_response t));
    ("h1", VStr (tg_h1 t)); ("h2", VStr (tg_h2 t)); ("h3", VStr (tg_h3 t));
    ("h4", VStr (tg_h4 t)); ("h5", VStr (tg_h5 t)); ("h6", VStr (tg_h6 t));
    ("div_text", VStr (tg_div_text t))
  ]%string.

Definition https_prefix : str := lit "https://".

(** [get_url]: the url as given, and the path of the url. *)
Definition get_url (url_response : UrlResponse) : result (str * str) :=
  match ur_url url_response with
  | None => Raise AttributeError                    (* None.startswith *)
  | Some url =>
      let new_url := if negb (startswith (lit "http") url) then https_prefix ++ url else url in
      (* Drop hostname from urls to reduce training bias *)
      path <- urlparse_path new_url ;;
      let url_path := drop 1 path in
      (* Remove trailing backslash *)
      let url_path :=
        match last url_path with
        | Some c => if ch_eqb c "/" then take (length url_path - 1) url_path else url_path
        | None => url_path
        end in
      Ok (url, url_path)
  end.

(** [verify_response]: the named tuple [(verified, http_response)]. *)
Definition verify_response (res : option Response) : bool * Z :=
  match res with
  | None => (false, -1)
  | Some r => if negb (ok r) then (false, status_code r) else (true, status_code r)
  end.

(** [get_parser]: [None] stands for the [False] it returns when the
    content is not readable. *)
Definition get_parser (res : Response) : option parser :=
  match getitem (headers res) content_type_key with
  | Raise _ => None                                  (* KeyError *)
  | Ok content_type =>
      if str_in (lit "html") content_type then Some lxml
      else if str_in (lit "xml") content_type then Some lxml_xml
      else None
  end.

(** [" ".join(s.split()).strip()]. *)
Definition remove_excess_whitespace (s : str) : str :=
  strip (join (lit " ") (split s)).

Definition get_html_title (soup : Soup) : str :=
  match soup_title soup with
  | Some (Some s) => remove_excess_whitespace s
  | _ => []
  end.

Definition get_meta_description (soup : Soup) : str :=
  match soup_meta soup with
  | None => []
  | Some None => []                                  (* KeyError *)
  | Some (Some c) => remove_excess_whitespace c
  end.

(** [json.dumps] of a list of strings, with [ensure_ascii=False]. *)
Definition quote : ascii := ascii_of_N 34.

Definition hex_digit (n : N) : ascii :=
  if (n <? 10)%N then ascii_of_N (48 + n) else ascii_of_N (87 + n).

Definition json_escape (c : ascii) : str :=
  let n := N_of_ascii c in
  if (n =? 34)%N then lit "\" ++ [quote]
  else if (n =? 92)%N then lit "\\"
  else if (n =? 10)%N then lit "\n"
  else if (n =? 13)%N then lit "\r"
  else if (n =? 9)%N then lit "\t"
  else if (n =? 8)%N then lit "\b"
  else if (n =? 12)%N then lit "\f"
  else if (n <? 32)%N then lit "\u00" ++ [hex_digit (n / 16); hex_digit (n mod 16)]
  else [c].

Definition json_string (s : str) : str :=
  [quote] ++ concat (json_escape <$> s) ++ [quote].

Definition json_dumps (l : list str) : str :=
  lit "[" ++ join (lit ", ") (json_string <$> l) ++ lit "]".

Definition set_header (t : Tags) (h : header_tag) (v : str) : Tags :=
  let 'Build_Tags i u p ti m r c a1 a2 a3 a4 a5 a6 d := t in
  match h with
  | h1 => Build_Tags i u p ti m r c v a2 a3 a4 a5 a6 d
  | h2 => Build_Tags i u p ti m r c a1 v a3 a4 a5 a6 d
  | h3 => Build_Tags i u p ti m r c a1 a2 v a4 a5 a6 d
  | h4 => Build_Tags i u p ti m r c a1 a2 a3 v a5 a6 d
  | h5 => Build_Tags i u p ti m r c a1 a2 a3 a4 v a6 d
  | h6 => Build_Tags i u p ti m r c a1 a2 a3 a4 a5 v d
  end.

Definition header_tags : list header_tag := [h1; h2; h3; h4; h5; h6].

Definition get_header_tags (tags : Tags) (soup : Soup) : Tags :=
  foldl (fun tags header_tag =>
           let headers := soup_find_all soup header_tag in
           (* drops headers containing links *)
           let header_content :=
             header_text <$> filter (fun h => header_a h = false) headers in
           set_header tags header_tag (json_dumps header_content))
        tags header_tags.

Definition MAX_WORDS : Z := 500.

(** The loop of [get_div_text] over the divs that are left, [div_text]
    being the text collected so far. *)
Fixpoint div_loop (div_text : str) (divs : list str) : str :=
  match divs with
  | [] => div_text
  | text :: divs' =>
      match text with
      | [] => div_loop div_text divs'
      | _ =>
          if len (split div_text) + len (split text) <=? MAX_WORDS
          then div_loop (div_text ++ text ++ lit " ") divs'
          else div_text                              (* break *)
      end
  end.

Definition get_div_text (soup : Soup) : str :=
  let div_text := div_loop [] (soup_divs soup) in
  (* Truncate to 5000 characters in case of run-on 'words' *)
  take (Z.to_nat (MAX_WORDS * 10)) div_text.

Definition parse_response (E : Env) (url_response : UrlResponse) : result (gmap string value) :=
  let tags := new_Tags in
  let res := ur_response url_response in
  let index := Some (ur_index url_response) in
  url_and_path <- get_url url_response ;;
  let '(url, url_path) := url_and_path in
  let root_page_title := remove_excess_whitespace (get_title E url) in
  let '(verified, http_response) := verify_response res in
  let tags := {|
    tg_index := index; tg_url := url; tg_url_path := url_path;
    tg_html_title := tg_html_title tags; tg_meta_description := tg_meta_description tags;
    tg_root_page_title := root_page_title; tg_http_response := http_response;
    tg_h1 := tg_h1 tags; tg_h2 := tg_h2 tags; tg_h3 := tg_h3 tags; tg_h4 := tg_h4 tags;
    tg_h5 := tg_h5 tags; tg_h6 := tg_h6 tags; tg_div_text := tg_div_text tags |} in
  match verified, res with
  | true, Some res =>
      match get_parser res with
      | None => Ok (asdict tags)
      | Some parser =>
          match (html <- html_text res ;; BeautifulSoup E html parser) with
          | Raise ParserRejectedMarkup | Raise AssertionError | Raise AttributeError =>
              Ok (asdict tags)
          | Raise e => Raise e
          | Ok soup =>
              let tags := get_header_tags {|
                tg_index := tg_index tags; tg_url := tg_url tags;
                tg_url_path := tg_url_path tags;
                tg_html_title := get_html_title soup;
                tg_meta_description := get_meta_description soup;
                tg_root_page_title := tg_root_page_title tags;
                tg_http_response := tg_http_response tags;
                tg_h1 := tg_h1 tags; tg_h2 := tg_h2 tags; tg_h3 := tg_h3 tags;
                tg_h4 := tg_h4 tags; tg_h5 := tg_h5 tags; tg_h6 := tg_h6 tags;
                tg_div_text := tg_div_text tags |} soup in
              let 'Build_Tags i u p ti m r c a1 a2 a3 a4 a5 a6 _ := tags in
              Ok (asdict (Build_Tags i u p ti m r c a1 a2 a3 a4 a5 a6 (get_div_text soup)))
          end
      end
  | _, _ => Ok (asdict tags)
  end.

(** ** One batch *)

(** [results.sort(key=lambda d: d["index"])]: a stable sort. *)
Fixpoint insert_by_index (x : Outcome) (l : list Outcome) : list Outcome :=
  match l with
  | [] => [x]
  | y :: l' => if (index x <=? index y)%nat then x :: y :: l' else y :: insert_by_index x l'
  end.

Definition sort_by_index (l : list Outcome) : list Outcome :=
  foldr insert_by_index [] l.

(** [fill_null] with the empty string, on the cells of a row. *)
Definition fill_null (v : value) : value :=
  match v with VNone => VStr [] | _ => v end.

(** The url that [process_urls] hands to the Fetch Engine. *)
Definition add_scheme (url : option str) : option str :=
  match url with
  | Some u => if negb (startswith (lit "http") u) then Some (https_prefix ++ u) else Some u
  | None => None
  end.

(** [process_urls]: the table that it stores in [manager_list[0]], one
    dictionary per row. *)
Definition process_urls (E : Env) (urls : list (option str)) (render_javascript : bool)
  : result (list (gmap string value)) :=
  let new_urls := add_scheme <$> urls in
  results <- run_get_response E new_urls ;;
  let results := sort_by_index results in
  urls_and_responses <-
    for_each (fun '(i, result) =>
                url <- list_getitem urls i ;;
                Ok {| ur_index := index result; ur_url := url;
                      ur_response := response result |})
             (imap pair results) ;;
  urls_and_responses <-
    (if render_javascript then render_js E urls_and_responses else Ok urls_and_responses) ;;
  urls_and_headers <- for_each (parse_response E) urls_and_responses ;;
  let urls_and_headers :=
    (fun url_headers : gmap string value => delete "index"%string url_headers)
      <$> urls_and_headers in
  Ok ((fun row : gmap string value => fill_null <$> row) <$> urls_and_headers).

(** ** Batch Orchestrator *)

(** A data frame is the input table, of which the collector reads the url
    column, or a table of feature rows. *)
Inductive Frame : Type :=
  | UrlFrame (urls : list (option str))
  | TagFrame (rows : list (gmap string value)).

(** [collector_main]: [process_urls] runs in a process of its own; when it
    raises there, the process ends and [manager_list[0]] still holds the
    frame it was given. *)
Definition collector_main (E : Env) (df : list (option str)) (render_javascript : bool)
  : Frame :=
  match process_urls E df render_javascript with
  | Ok rows => TagFrame rows
  | Raise _ => UrlFrame df
  end.




End Collector.

(* ===================================================================== *)
(** * common_crawler/crawler.py                                           *)
(* ===================================================================== *)

Module Crawler.
Import Py.

(** ** The pattern of a crawl id *)

(** The pattern [r'CC-MAIN-\d{4}-\d{2}'] is a sequence of items, each a
    literal character or [\d]. *)
Inductive item : Type :=
  | Char (c : ascii)
  | Digit.

Definition crawl_id_pattern : list item :=
  (Char <$> lit "CC-MAIN-") ++ replicate 4 Digit ++ [Char "-"] ++ replicate 2 Digit.

(** [re.match(pattern, s)] for such a pattern: does a prefix of [s] match? *)
Fixpoint re_match (pattern : list item) (s : str) : bool :=
  match pattern, s with
  | [], _ => true
  | _ :: _, [] => false
  | Char c :: pattern', d :: s' => ch_eqb c d && re_match pattern' s'
  | Digit :: pattern', d :: s' => is_digit d && re_match pattern' s'
  end.

(** ** The world of the manager *)

(** A cursor belongs to an index, a search term and a keyword. *)
Abbreviation key := (str * str * str)%type.

(** A request to the index server: the root url of the index, the url
    searched for and the page. *)
Record Request : Type := {
  rq_root_url : str;
  rq_url : str;
  rq_page : Z;
}.

(** What the manager does to its surroundings. *)
Inductive event : Type :=
  | Search (rq : Request)
  | CacheGet (k : key)
  | SaveCache.

(** The cursors in memory ([self.cache.cache]), the cursors last written
    to the cache storage, and the events so far, most recent first. *)
Record World : Type := {
  cache : gmap key Z;
  stored : gmap key Z;
  events : list event;
}.

(** The answer of the index server to [requests.get]. *)
Inductive reply : Type :=
  | Reply (status_code : Z) (text : str)
  | NoReply (e : exn).

(** The index server and the decoder of one line of its answer
    ([json.loads], [None] when the line is not JSON). *)
Record Index : Type := {
  requests_get : Request -> reply;
  json_loads : str -> option (gmap str str);
}.

(** A computation in the world: it returns or raises, and leaves a world
    behind either way. *)
Definition M (A : Type) : Type := World -> result A * World.

Definition ret {A} (a : A) : M A := fun w => (Ok a, w).
Definition raise {A} (e : exn) : M A := fun w => (Raise e, w).
Definition lift {A} (r : result A) : M A := fun w => (r, w).
Definition mbind {A B} (m : M A) (k : A -> M B) : M B :=
  fun w => match m w with
           | (Ok a, w') => k a w'
           | (Raise e, w') => (Raise e, w')
           end.
Definition emit (ev : event) : M unit :=
  fun w => (Ok (), {| cache := cache w; stored := stored w; events := ev :: events w |}).

Notation "x <~ m ;; k" := (mbind m (fun x => k))
  (at level 100, m at next level, right associativity,
   format "'[v' x  <~  m  ;;  '/' k ']'").

(** Modelled from the spec: [CommonCrawlerCacheManager] of
    [common_crawler.cache], which is not among the sources; it keeps "a
    pagination cursor per (index, query, keyword)".  [get] returns the
    last page of the cursor, which it creates at page 0 when there is
    none; the cursor is updated in place; [save_cache] writes the cursors
    to the storage. *)
Definition cache_get (k : key) : M Z :=
  _ <~ emit (CacheGet k) ;;
  fun w =>
    match cache w !! k with
    | Some last_page => (Ok last_page, w)
    | None => (Ok 0, {| cache := <[k := 0]> (cache w); stored := stored w;
                        events := events w |})
    end.

Definition set_last_page (k : key) (page : Z) : M unit :=
  fun w => (Ok (), {| cache := <[k := page]> (cache w); stored := stored w;
                      events := events w |}).

Definition save_cache : M unit :=
  _ <~ emit SaveCache ;;
  fun w => (Ok (), {| cache := cache w; stored := cache w; events := events w |}).

(** ** CommonCrawler *)

Definition CC_INDEX_SERVER : str := lit "http://index.commoncrawl.org/".

(** [CommonCrawler(crawl_id).root_url]. *)
Definition root_url (crawl_id : str) : str :=
  CC_INDEX_SERVER ++ crawl_id ++ lit "-index".

Definition newline : ascii := ascii_of_N 10.
Definition url_key : str := lit "url".

Definition search_common_crawl_index (X : Index) (root : str) (url : str) (page : Z)
  : M (option (list (gmap str str))) :=
  let rq := {| rq_root_url := root; rq_url := url; rq_page := page |} in
  _ <~ emit (Search rq) ;;
  match requests_get X rq with
  | NoReply e => raise e
  | Reply status_code text =>
      if status_code =? 200 then
        let records := split_on newline (strip text) in
        parsed <~ lift (for_each (fun record =>
                                    match json_loads X record with
                                    | Some r => Ok r
                                    | None => Raise JSONDecodeError
                                    end) records) ;;
        ret (Some parsed)
      else ret None
  end.

(** [[record['url'] for record in records if keyword in record['url']]]. *)
Definition get_urls_with_keyword (records : list (gmap str str)) (keyword : str)
  : result (list str) :=
  urls <- for_each (fun record : gmap str str =>
                      match record !! url_key with
                      | Some u => Ok u
                      | None => Raise KeyError
                      end) records ;;
  Ok (filter (fun u => str_in keyword u = true) urls).

(** ** CommonCrawlerManager *)

Record UrlResults : Type := {
  res_index : str;
  res_url : str;
  res_search_term : str;
  res_page : Z;
  res_keyword : str;
}.

(** The loop of [crawl] over the pages that are left. *)
Fixpoint crawl_pages (X : Index) (crawl_id search_term keyword : str)
    (pages : list Z) (results : list UrlResults) : M (list UrlResults) :=
  match pages with
  | [] => ret results
  | next_page :: pages' =>
      records <~ search_common_crawl_index X (root_url crawl_id) search_term next_page ;;
      match records with
      | None | Some [] => crawl_pages X crawl_id search_term keyword pages' results
      | Some records =>
          keyword_urls <~ lift (get_urls_with_keyword records keyword) ;;
          let results :=
            results ++ ((fun keyword_url =>
                           {| res_index := crawl_id; res_url := keyword_url;
                              res_search_term := search_term; res_page := next_page;
                              res_keyword := keyword |}) <$> keyword_urls) in
          _ <~ set_last_page (crawl_id, search_term, keyword) next_page ;;
          crawl_pages X crawl_id search_term keyword pages' results
      end
  end.

Definition crawl (X : Index) (crawl_id search_term keyword : str) (num_pages : Z)
  : M (list UrlResults) :=
  (* Check that crawl_id is valid *)
  if negb (re_match crawl_id_pattern crawl_id) then raise (ValueError "Invalid crawl_id")
  else
    (* Retrieve the cache object *)
    last_page <~ cache_get (crawl_id, search_term, keyword) ;;
    let start_page := last_page + 1 in
    results <~ crawl_pages X crawl_id search_term keyword (seqZ start_page num_pages) [] ;;
    (* cache_object is updated in-place; calling save_cache persists these changes. *)
    _ <~ save_cache ;;
    ret results.

End Crawler.

(* ===================================================================== *)
(** * A small world to run the code in                                    *)
(* ===================================================================== *)

Module Example.
Import Py Collector.

Definition html_headers : gmap str str :=
  {[ content_type_key := lit "text/html; charset=utf-8" ]}.

Definition page (status : Z) (html : string) : HTMLResponse :=
  {| hr_status_code := status; hr_headers := html_headers;
     hr_content := [x3c; x70; x3e]%byte; hr_html := lit html |}.

Definition example_soup : Soup :=
  {| soup_title := Some (Some (lit " Example   Domain "));
     soup_meta := Some None;
     soup_find_all := fun h =>
       match h with
       | h1 => [ {| header_text := lit "Example Domain"; header_a := false |};
                 {| header_text := lit "Home"; header_a := true |} ]
       | _ => []
       end;
     soup_divs := [lit "This domain is for use in examples."; []; lit "More information"] |}.

(** [https://example.com/a] answers; [https://legacy.example] fails the
    certificate check and answers without it; [https://gone.example/b] is
    a 404; every other address refuses the connection.  [gather] hands the
    results back in reverse; a page never finishes rendering. *)
Definition env : Env :=
  {| session_get := fun url verify =>
       match url with
       | Some u =>
           if bool_decide (u = lit "https://example.com/a") then
             Responds (page 200 "<html><h1>Example Domain</h1></html>")
           else if bool_decide (u = lit "https://legacy.example") then
             if verify then Fails RequestsSSLError
             else Responds (page 200 "<html></html>")
           else if bool_decide (u = lit "https://gone.example/b") then
             Responds (page 404 "Not Found")
           else Fails ConnectionError
       | None => Fails RequestException
       end;
     gather := fun results => rev results;
     arender := fun _ => Hangs;
     get_title := fun _ => lit "Example Domain";
     BeautifulSoup := fun _ _ => Ok example_soup |}.

End Example.

(* ===================================================================== *)
(** * Facts about the string methods                                      *)
(* ===================================================================== *)

Section PyFacts.
Import Py.

Lemma ch_eqb_eq c d : ch_eqb c d = true <-> c = d.
Proof. unfold ch_eqb. apply Ascii.eqb_eq. Qed.

Lemma ch_eqb_refl c : ch_eqb c c = true.
Proof. by apply ch_eqb_eq. Qed.

(** [startswith] decides "is a prefix of". *)
Lemma startswith_spec p s : startswith p s = true <-> exists t, s = p ++ t.
Proof.
  revert s. induction p as [|a p IH]; intros s; simpl.
  - split; [intros _; by exists s | done].
  - destruct s as [|b s].
    + split; [done | intros [t Ht]; discriminate].
    + rewrite andb_true_iff, ch_eqb_eq, IH. split.
      * intros [-> [t ->]]. by exists t.
      * intros [t Ht]. simplify_eq. eauto.
Qed.

Lemma startswith_app p t : startswith p (p ++ t) = true.
Proof. apply startswith_spec. eauto. Qed.

(** [str_in] decides "occurs in". *)
Lemma str_in_spec sub s :
  str_in sub s = true <-> exists pre post, s = pre ++ sub ++ post.
Proof.
  induction s as [|c s IH]; simpl.
  - rewrite orb_false_r, startswith_spec. split.
    + intros [t Ht]. by exists [], t.
    + intros (pre & post & H). symmetry in H.
      apply app_eq_nil in H as [_ H]. apply app_eq_nil in H as [Hsub _].
      exists []. by rewrite Hsub.
  - rewrite orb_true_iff, startswith_spec, IH. split.
    + intros [[t Ht] | (pre & post & ->)].
      * by exists [], t.
      * by exists (c :: pre), post.
    + intros ([|c' pre] & post & H); simpl in H.
      * left. eauto.
      * right. simplify_eq. eauto.
Qed.

Lemma ch_in_spec c s : ch_in c s = true <-> c ∈ s.
Proof.
  unfold ch_in. rewrite existsb_exists. split.
  - intros (x & Hx & Heq). apply ch_eqb_eq in Heq as ->. by apply list_elem_of_In.
  - intros H. exists c. split; [by apply list_elem_of_In | apply ch_eqb_refl].
Qed.

(** [break_at] cuts the string before the first character with [p]. *)
Lemma break_at_spec p s a b :
  break_at p s = (a, b) ->
  s = a ++ b /\ forallb (fun c => negb (p c)) a = true /\
  match b with [] => True | c :: _ => p c = true end.
Proof.
  revert a b. induction s as [|c s IH]; intros a b; simpl.
  - intros [= <- <-]. done.
  - destruct (p c) eqn:Hc.
    + intros [= <- <-]. done.
    + destruct (break_at p s) as [a' b'] eqn:Hs. intros [= <- <-].
      destruct (IH _ _ eq_refl) as (-> & Ha & Hb). simpl. by rewrite Hc.
Qed.

(** The number of words that [split] finds, [inword] telling whether the
    scan is inside a word. *)
Fixpoint words_from (inword : bool) (s : str) : nat :=
  match s with
  | [] => if inword then 1 else 0
  | c :: s' =>
      if isspace c then (if inword then 1 else 0) + words_from false s'
      else words_from true s'
  end.

Lemma length_split_from w s :
  length (split_from w s) = words_from (match w with [] => false | _ => true end) s.
Proof.
  revert w. induction s as [|c s IH]; intros w; simpl.
  - by destruct w.
  - destruct (isspace c).
    + destruct w; simpl; by rewrite IH.
    + by rewrite IH.
Qed.

Lemma length_split s : length (split s) = words_from false s.
Proof. apply length_split_from. Qed.

Lemma words_from_inword s : (1 <= words_from true s)%nat.
Proof. induction s as [|c s IH]; simpl; [lia|]. destruct (isspace c); lia. Qed.

Lemma words_from_true_le s : (words_from true s <= 1 + words_from false s)%nat.
Proof. destruct s as [|c s]; simpl; [lia|]. destruct (isspace c); lia. Qed.

Lemma words_from_false_le s : (words_from false s <= words_from true s)%nat.
Proof. destruct s as [|c s]; simpl; [lia|]. destruct (isspace c); lia. Qed.

(** A prefix does not have more words. *)
Lemma words_from_take b n s : (words_from b (take n s) <= words_from b s)%nat.
Proof.
  revert b n. induction s as [|c s IH]; intros b n.
  - by rewrite take_nil.
  - destruct n as [|n]; simpl.
    + destruct b; [|lia]. destruct (isspace c); [lia|]. apply words_from_inword.
    + destruct (isspace c); [specialize (IH false n) | specialize (IH true n)]; lia.
Qed.

(** Joining two strings does not make words. *)
Lemma words_from_app b s t :
  (words_from b (s ++ t) <= words_from b s + words_from false t)%nat.
Proof.
  revert b. induction s as [|c s IH]; intros b; simpl.
  - destruct b; [|lia]. pose proof (words_from_true_le t). lia.
  - destruct (isspace c); [specialize (IH false) | specialize (IH true)]; lia.
Qed.

(** A space at the end does not make a word. *)
Lemma words_from_space b s c :
  isspace c = true -> words_from b (s ++ [c]) = words_from b s.
Proof.
  intros Hc. revert b. induction s as [|d s IH]; intros b; simpl.
  - rewrite Hc. lia.
  - destruct (isspace d); by rewrite IH.
Qed.

Lemma len_split_take n s : len (split (take n s)) <= len (split s).
Proof. unfold len. rewrite !length_split. pose proof (words_from_take false n s). lia. Qed.

End PyFacts.

(* ===================================================================== *)
(** * The Response Filter                                                 *)
(* ===================================================================== *)

Section ResponseFilter.
Import Py Collector.

(** The content type matches the blacklist: one of the filtered types
    occurs in it. *)
Definition blacklisted (content_type : option str) : Prop :=
  exists ct t pre post,
    content_type = Some ct /\ t ∈ filtered_types /\ ct = pre ++ t ++ post.

(** The three rules of the filter, for a response that was fetched. *)
Definition discardable (r : HTMLResponse) (content_type : option str) : Prop :=
  10000000 < len (hr_content r) \/ blacklisted content_type \/ ok (Fetched r) = false.

Lemma unreadable_type_spec ct :
  unreadable_type ct = true <-> blacklisted (Some ct).
Proof.
  unfold unreadable_type, blacklisted. rewrite existsb_exists. split.
  - intros (t & Ht & Hin). apply str_in_spec in Hin as (pre & post & ->).
    exists (pre ++ t ++ post), t, pre, post. by rewrite list_elem_of_In.
  - intros (ct' & t & pre & post & [= <-] & Ht & ->). exists t.
    rewrite <-list_elem_of_In. split; [done|]. apply str_in_spec. eauto.
Qed.

Lemma must_discard_fetched r content_type :
  exists b, must_discard (Some (Fetched r)) content_type = Ok b /\
            (b = true <-> discardable r content_type).
Proof.
  unfold must_discard, discardable. simpl.
  destruct (10000000 <? len (hr_content r)) eqn:Hlen.
  { exists true. split; [done|]. apply Z.ltb_lt in Hlen. tauto. }
  apply Z.ltb_ge in Hlen.
  destruct content_type as [ct|].
  - destruct (unreadable_type ct) eqn:Hct.
    { exists true. split; [done|]. apply unreadable_type_spec in Hct. tauto. }
    exists (negb (ok (Fetched r))). split; [done|].
    assert (~ blacklisted (Some ct)) as Hn.
    { rewrite <-unreadable_type_spec. congruence. }
    rewrite negb_true_iff. split; [tauto|]. intros [?|[?|?]]; [lia|done..].
  - exists (negb (ok (Fetched r))). split; [done|].
    rewrite negb_true_iff. split; [tauto|].
    intros [?|[(? & ? & ? & ? & ? & _)|?]]; [lia|done..].
Qed.

(** On a fetched response the filter returns: the reduced response when
    the test holds, the response itself otherwise. *)
Lemma response_valid_fetched r content_type url :
  exists b,
    (b = true <-> discardable r content_type) /\
    response_valid (Some (Fetched r)) content_type url
    = Ok (Some (if b then Reduced (hr_status_code r) else Fetched r)).
Proof.
  destruct (must_discard_fetched r content_type) as (b & Hb & Hiff).
  exists b. split; [done|]. unfold response_valid. rewrite Hb. by destruct b.
Qed.


(** The filter raises when there is no response and the content type is
    one of the filtered ones. *)
Lemma response_valid_absent_raises ct url :
  unreadable_type ct = true -> response_valid None (Some ct) url = Raise AttributeError.
Proof. intros Hct. unfold response_valid, must_discard. simpl. by rewrite Hct. Qed.


(** Where the filter does return: on every fetched response, and on an
    absent response whose content type is absent or readable. *)
Lemma response_valid_returns response content_type url :
  match response with
  | Some (Fetched _) => True
  | Some (Reduced _) => False
  | None => match content_type with
            | Some ct => unreadable_type ct = false
            | None => True
            end
  end ->
  exists out, response_valid response content_type url = Ok out /\
              (response = None -> out = None).
Proof.
  destruct response as [[r|c]|]; [|done|].
  - intros _. destruct (response_valid_fetched r content_type url) as (b & _ & ->).
    eexists. by split.
  - intros H. exists None. split; [|done].
    unfold response_valid, must_discard. simpl.
    destruct content_type as [ct|]; [by rewrite H | done].
Qed.

(** The filter cannot measure a reduced response. *)
Lemma response_valid_reduced_raises c content_type url :
  response_valid (Some (Reduced c)) content_type url = Raise TypeError.
Proof. reflexivity. Qed.




End ResponseFilter.

(* ===================================================================== *)
(** * The Fetch Engine                                                    *)
(* ===================================================================== *)

Section Results.

Lemma for_each_Ok {A B} (f : A -> result B) (g : A -> B) (l : list A) :
  (forall x, x ∈ l -> f x = Ok (g x)) -> for_each f l = Ok (g <$> l).
Proof.
  induction l as [|x l IH]; intros H; simpl; [done|].
  rewrite H by left. simpl. rewrite IH; [done|]. intros y Hy. apply H. by right.
Qed.

Lemma for_each_app {A B} (f : A -> result B) l1 l2 r1 r2 :
  for_each f l1 = Ok r1 -> for_each f l2 = Ok r2 ->
  for_each f (l1 ++ l2) = Ok (r1 ++ r2).
Proof.
  revert r1. induction l1 as [|x l1 IH]; intros r1; simpl.
  - by intros [= <-].
  - destruct (f x) as [y|e]; simpl; [|done].
    destruct (for_each f l1) as [ys|e]; simpl; [|done].
    intros [= <-] H2. by rewrite (IH ys eq_refl H2).
Qed.

Lemma for_each_length {A B} (f : A -> result B) l r :
  for_each f l = Ok r -> length r = length l.
Proof.
  revert r. induction l as [|x l IH]; intros r; simpl.
  - by intros [= <-].
  - destruct (f x) as [y|e]; simpl; [|done].
    destruct (for_each f l) as [ys|e]; simpl; [|done].
    intros [= <-]. simpl. by rewrite (IH ys).
Qed.

Lemma for_each_lookup {A B} (f : A -> result B) l r i x :
  for_each f l = Ok r -> l !! i = Some x ->
  exists y, r !! i = Some y /\ f x = Ok y.
Proof.
  revert r i. induction l as [|x' l IH]; intros r i; simpl; [done|].
  destruct (f x') as [y|e] eqn:Hx; simpl; [|done].
  destruct (for_each f l) as [ys|e]; simpl; [|done].
  intros [= <-]. destruct i as [|i]; simpl.
  - intros [= <-]. eauto.
  - intros Hi. by apply (IH ys).
Qed.



End Results.

Section FetchEngine.
Import Py Collector.
Context (E : Env).

(** [get_response] returns, with the index it was given. *)
Lemma get_response_returns url i :
  exists r, get_response E url i = Ok {| index := i; response := r |}.
Proof.
  unfold get_response.
  destruct (try_get E (removesuffix dot_json <$> url)) as [[url' res] in_flight].
  destruct res as [r|]; simpl.
  - destruct (response_valid_fetched r (hr_headers r !! content_type_key) url')
      as (b & _ & ->). simpl. eauto.
  - eauto.
Qed.

(** The response of the outcome for [url]. *)
Definition fetched (url : option str) : option Response :=
  match get_response E url 0 with
  | Ok outcome => response outcome
  | Raise _ => None
  end.

Lemma get_response_fetched url i :
  get_response E url i = Ok {| index := i; response := fetched url |}.
Proof.
  unfold fetched. destruct (get_response_returns url 0) as [r0 H0]. rewrite H0. simpl.
  destruct (get_response_returns url i) as [r Hi]. rewrite Hi.
  unfold get_response in *.
  destruct (try_get E (removesuffix dot_json <$> url)) as [[url' res] in_flight].
  destruct (response_valid _ _ _); simpl in *; congruence.
Qed.

(** The outcomes of a list of urls, in the order of the urls. *)
Definition outcomes (urls : list (option str)) : list Outcome :=
  imap (fun i url => {| index := i; response := fetched url |}) urls.

Lemma run_get_response_outcomes urls :
  run_get_response E urls = Ok (gather E (outcomes urls)).
Proof.
  unfold run_get_response.
  rewrite (for_each_Ok _ (fun '(i, url) => {| index := i; response := fetched url |})).
  - simpl. unfold outcomes. by rewrite fmap_imap.
  - intros [i url] _. apply get_response_fetched.
Qed.

Lemma index_outcomes urls : index <$> outcomes urls = seq 0 (length urls).
Proof.
  unfold outcomes. rewrite fmap_imap.
  apply list_eq. intros i. rewrite list_lookup_imap.
  destruct (urls !! i) as [u|] eqn:Hi; simpl.
  - symmetry. apply lookup_seq. split; [done|]. by apply lookup_lt_Some in Hi.
  - symmetry. apply lookup_seq_ge. by apply lookup_ge_None in Hi.
Qed.

(** C1.  For every list of N urls the Fetch Engine returns N outcomes,
    one per url: the indices of the outcomes are those of [0,N), none
    twice and none missing, and the outcome with index i is the one that
    [get_response] returns for the i-th url.  This holds whatever the
    fetch attempts do, raise in a handler included. *)
Theorem fetch_total_coverage (urls : list (option str)) :
  gathers_all E ->
  exists results,
    run_get_response E urls = Ok results /\
    length results = length urls /\
    index <$> results ≡ₚ seq 0 (length urls) /\
    NoDup (index <$> results) /\
    (forall i, i ∈ index <$> results <-> (i < length urls)%nat) /\
    (forall outcome, outcome ∈ results ->
       exists url, urls !! index outcome = Some url /\
                   get_response E url (index outcome) = Ok outcome).
Proof.
  intros Hg. exists (gather E (outcomes urls)).
  assert (index <$> gather E (outcomes urls) ≡ₚ seq 0 (length urls)) as Hperm.
  { rewrite (Hg (outcomes urls)). by rewrite index_outcomes. }
  split_and!.
  - apply run_get_response_outcomes.
  - rewrite (Hg (outcomes urls)). unfold outcomes. by rewrite length_imap.
  - done.
  - rewrite Hperm. apply NoDup_seq.
  - intros i. rewrite Hperm, elem_of_seq. lia.
  - intros outcome. rewrite (Hg (outcomes urls)). unfold outcomes.
    rewrite elem_of_lookup_imap. intros (i & url & -> & Hi). simpl.
    exists url. split; [done|]. apply get_response_fetched.
Qed.

End FetchEngine.

(** The urls of a batch in the example world: one that answers, one that
    needs the retry without verification, an absent one, and one too short
    for the retry with https, whose handler raises [IndexError]. *)
Definition example_urls : list (option str) :=
  [Some (lit "https://example.com/a"); Some (lit "https://legacy.example"); None;
   Some (lit "http")].

Lemma example_gathers_all : Collector.gathers_all Example.env.
Proof. intros l. simpl. symmetry. apply Permutation_rev. Qed.

Lemma fetch_total_coverage_witness :
  exists results,
    Collector.run_get_response Example.env example_urls = Ok results /\
    length results = length example_urls /\
    Collector.index <$> results ≡ₚ seq 0 (length example_urls) /\
    NoDup (Collector.index <$> results) /\
    (forall i, i ∈ Collector.index <$> results <-> (i < length example_urls)%nat) /\
    (forall outcome, outcome ∈ results ->
       exists url, example_urls !! Collector.index outcome = Some url /\
                   Collector.get_response Example.env url (Collector.index outcome)
                   = Ok outcome).
Proof. apply (fetch_total_coverage Example.env example_urls), example_gathers_all. Defined.

(** The handler of [ConnectionError] raises on the url [http]; the
    outcome is there all the same, without a response. *)
Example get_response_handler_raises :
  Collector.try_get Example.env (Some (lit "http")) = (Some (lit "http"), None, Some IndexError) /\
  Collector.get_response Example.env (Some (lit "http")) 3
  = Ok {| Collector.index := 3; Collector.response := None |}.
Proof. split; reflexivity. Qed.

(* ===================================================================== *)
(** * The Render Stage                                                    *)
(* ===================================================================== *)

Section RenderStage.
Import Py Collector.
Context (E : Env).

(** The polling loop ends: from [time_elapsed] on it takes at most
    [151 - time_elapsed] rounds, and never counts beyond 151. *)
Lemma poll_enough task fuel time_elapsed :
  (time_elapsed <= 150)%nat -> (150 - time_elapsed < fuel)%nat ->
  exists t cancel_called,
    poll fuel task time_elapsed = Some (t, cancel_called) /\
    (time_elapsed <= t <= 151)%nat /\
    (cancel_called = true -> t = 151%nat) /\
    (cancel_called = false -> done task t = true).
Proof.
  revert time_elapsed. induction fuel as [|fuel IH]; intros t Ht Hfuel; [lia|].
  simpl. destruct (done task t) eqn:Hdone.
  { exists t, false. split_and!; [done | lia | lia | done | done]. }
  destruct (150 <? S t)%nat eqn:Hlim.
  - apply Nat.ltb_lt in Hlim. exists (S t), true.
    split_and!; [done | lia | lia | lia | done].
  - apply Nat.ltb_ge in Hlim.
    destruct (IH (S t)) as (t' & c & -> & ? & ? & ?); [lia | lia |].
    exists t', c. split_and!; [done | lia | lia | done | done].
Qed.

(** A task that hangs is cancelled when the count reaches 151. *)
Lemma poll_hangs fuel :
  (150 < fuel)%nat -> poll fuel Hangs 0 = Some (151%nat, true).
Proof.
  intros Hfuel.
  destruct (poll_enough Hangs fuel 0) as (t & c & Hp & Ht & Hc & Hd); [lia | lia |].
  rewrite Hp. destruct c.
  - by rewrite Hc.
  - by specialize (Hd eq_refl).
Qed.

(** The Render Stage never raises, and changes nothing of a response but
    the text of its page. *)
Lemma render_one_returns r :
  exists html,
    render_one E r = Ok {| hr_status_code := hr_status_code r; hr_headers := hr_headers r;
                           hr_content := hr_content r; hr_html := html |}.
Proof.
  unfold render_one. destruct (poll polling_rounds (arender E r) 0) as [[t c]|].
  - destruct (await_task (arender E r) t c) as [html|e].
    + eauto.
    + exists (hr_html r). by destruct r, e.
  - exists (hr_html r). by destruct r.
Qed.

Lemma render_item_returns url_response :
  exists res,
    render_item E url_response
    = Ok {| ur_index := ur_index url_response; ur_url := ur_url url_response;
            ur_response := res |}.
Proof.
  unfold render_item. destruct url_response as [i u [[r|c]|]]; simpl.
  - destruct (negb (ok (Fetched r))); [eauto|].
    destruct (render_one_returns r) as [html ->]. simpl. eauto.
  - destruct (negb (ok (Reduced c))); eauto.
  - eauto.
Qed.

(** C5.  A render task that never completes is cancelled by the polling
    loop when its count of 0.1 s sleeps passes 150, which is at 151: one
    polling interval after the 15 seconds, not later.  The cancellation
    that [await task] then raises is swallowed, and the response is left
    as it was, so that the Feature Extractor reads the page as it was
    fetched. *)
Theorem render_timeout (r : HTMLResponse) (i : nat) (url : option str) :
  arender E r = Hangs ->
  let url_response :=
    {| ur_index := i; ur_url := url; ur_response := Some (Fetched r) |} in
  (exists time_elapsed,
     poll polling_rounds (arender E r) 0 = Some (time_elapsed, true) /\
     time_elapsed = 151%nat /\ (150 <= time_elapsed <= 150 + 1)%nat /\
     await_task (arender E r) time_elapsed true = Raise CancelledError) /\
  render_one E r = Ok r /\
  render_js E [url_response] = Ok [url_response] /\
  (forall rendered, render_js E [url_response] = Ok [rendered] ->
     parse_response E rendered = parse_response E url_response).
Proof.
  intros Hhang url_response.
  assert (render_one E r = Ok r) as Hone.
  { unfold render_one. rewrite Hhang, poll_hangs by (unfold polling_rounds; lia). done. }
  assert (render_js E [url_response] = Ok [url_response]) as Hjs.
  { unfold render_js, render_item. simpl.
    destruct (negb (ok (Fetched r))); [done|]. rewrite Hone. simpl. done. }
  split_and!.
  - exists 151%nat. rewrite Hhang, poll_hangs by (unfold polling_rounds; lia).
    split_and!; [done | done | lia | lia | done].
  - done.
  - done.
  - intros rendered. rewrite Hjs. by intros [= <-].
Qed.

End RenderStage.

Lemma render_timeout_witness :
  let r := Example.page 200 "<html><h1>Example Domain</h1></html>" in
  let url_response :=
    {| Collector.ur_index := 0; Collector.ur_url := Some (lit "https://example.com/a");
       Collector.ur_response := Some (Collector.Fetched r) |} in
  (exists time_elapsed,
     Collector.poll Collector.polling_rounds (Collector.arender Example.env r) 0
     = Some (time_elapsed, true) /\
     time_elapsed = 151%nat /\ (150 <= time_elapsed <= 150 + 1)%nat /\
     Collector.await_task (Collector.arender Example.env r) time_elapsed true
     = Raise CancelledError) /\
  Collector.render_one Example.env r = Ok r /\
  Collector.render_js Example.env [url_response] = Ok [url_response] /\
  (forall rendered, Collector.render_js Example.env [url_response] = Ok [rendered] ->
     Collector.parse_response Example.env rendered
     = Collector.parse_response Example.env url_response).
Proof.
  apply (render_timeout Example.env
           (Example.page 200 "<html><h1>Example Domain</h1></html>") 0
           (Some (lit "https://example.com/a"))).
  reflexivity.
Defined.

(* ===================================================================== *)
(** * The Feature Extractor: the text of the divs                         *)
(* ===================================================================== *)

Section DivText.
Import Py Collector.

(** What the loop appends for one div: its text and a space, or nothing
    when the text is empty. *)
Definition whole (text : str) : str :=
  match text with
  | [] => []
  | _ => text ++ lit " "
  end.

Lemma len_split_append div_text text :
  len (split (div_text ++ text ++ lit " ")) <= len (split div_text) + len (split text).
Proof.
  unfold len. rewrite !length_split.
  pose proof (words_from_app false div_text (text ++ lit " ")) as H.
  change (lit " ") with [" "%char] in *.
  rewrite (words_from_space false text " "%char) in H by reflexivity. lia.
Qed.

Lemma div_loop_cons div_text text divs :
  text <> [] ->
  div_loop div_text (text :: divs)
  = if len (split div_text) + len (split text) <=? MAX_WORDS
    then div_loop (div_text ++ text ++ lit " ") divs
    else div_text.
Proof. by destruct text. Qed.

Lemma whole_cons c text : whole (c :: text) = (c :: text) ++ lit " ".
Proof. done. Qed.

(** The loop appends the texts of the first [k] divs, each whole, and
    stops at the first div that would take the count of words past
    [MAX_WORDS]. *)
Lemma div_loop_spec div_text divs :
  len (split div_text) <= MAX_WORDS ->
  exists k,
    (k <= length divs)%nat /\
    div_loop div_text divs = div_text ++ concat (whole <$> take k divs) /\
    len (split (div_loop div_text divs)) <= MAX_WORDS /\
    (k = length divs \/
     exists text, divs !! k = Some text /\ text <> [] /\
       MAX_WORDS < len (split (div_loop div_text divs)) + len (split text)).
Proof.
  revert div_text. induction divs as [|text divs IH]; intros div_text Hacc.
  - exists 0%nat. simpl. rewrite app_nil_r. split_and!; [lia | done | done | by left].
  - destruct text as [|c text].
    + destruct (IH div_text Hacc) as (k & Hk & Heq & Hlen & Hstop).
      exists (S k). simpl. split_and!; [lia | done | done |].
      destruct Hstop as [->|Hstop]; [by left | by right].
    + rewrite div_loop_cons by done.
      destruct (len (split div_text) + len (split (c :: text)) <=? MAX_WORDS) eqn:Hc.
      * apply Z.leb_le in Hc.
        assert (len (split (div_text ++ (c :: text) ++ lit " ")) <= MAX_WORDS) as Hacc'.
        { pose proof (len_split_append div_text (c :: text)). lia. }
        destruct (IH _ Hacc') as (k & Hk & Heq & Hlen & Hstop).
        exists (S k). split_and!; [simpl; lia | | done |].
        -- rewrite Heq, firstn_cons, fmap_cons, concat_cons, whole_cons.
           by rewrite <-!app_assoc.
        -- destruct Hstop as [->|Hstop]; [by left | by right].
      * apply Z.leb_gt in Hc. exists 0%nat. rewrite take_0, fmap_nil, concat_nil, app_nil_r.
        split_and!; [simpl; lia | done | done |]. right. exists (c :: text).
        split_and!; [done | done | lia].
Qed.

(** C8.  The text of the divs has at most 500 words and at most 5000
    characters, whatever the divs are.  It is the first 5000 characters of
    a text made of whole divs, the first [k] of them, each followed by a
    space; [k] is where the loop stops, at the end of the divs or at the
    first div whose words would take the count past 500. *)
Theorem get_div_text_bounds (soup : Soup) :
  len (split (get_div_text soup)) <= 500 /\
  len (get_div_text soup) <= 5000 /\
  exists k,
    (k <= length (soup_divs soup))%nat /\
    get_div_text soup = take 5000 (concat (whole <$> take k (soup_divs soup))) /\
    len (split (concat (whole <$> take k (soup_divs soup)))) <= 500 /\
    (k = length (soup_divs soup) \/
     exists text, soup_divs soup !! k = Some text /\ text <> [] /\
       500 < len (split (concat (whole <$> take k (soup_divs soup)))) + len (split text)).
Proof.
  unfold get_div_text.
  destruct (div_loop_spec [] (soup_divs soup)) as (k & Hk & Heq & Hlen & Hstop);
    [done|].
  simpl in Heq. rewrite Heq in *. change (Z.to_nat (MAX_WORDS * 10)) with 5000%nat.
  change MAX_WORDS with 500 in *. split_and!.
  - etrans; [apply len_split_take | done].
  - unfold len. rewrite length_take. lia.
  - exists k. done.
Qed.

(** A page with one div, whose text is one word of 50,000 characters:
    its text is cut to 5000 characters, and is one word. *)
Example get_div_text_long_word :
  let soup := {| soup_title := None; soup_meta := None; soup_find_all := fun _ => [];
                 soup_divs := [replicate (Z.to_nat 50000) "a"%char] |} in
  len (get_div_text soup) = 5000 /\ len (split (get_div_text soup)) = 1.
Proof. vm_compute. done. Qed.

End DivText.

(* ===================================================================== *)
(** * The Feature Extractor: the path of the url                          *)
(* ===================================================================== *)

Section UrlPath.
Import Py Collector.

(** The url that [get_url] parses. *)
Definition with_https (url : str) : str :=
  if negb (startswith (lit "http") url) then https_prefix ++ url else url.

(** A path with a single leading slash and a single trailing slash
    removed. *)
Definition without_slashes (path : str) : str :=
  removesuffix (lit "/") (removeprefix (lit "/") path).

(** C9 in the words of the design: the path of the normalized url, the
    url with [https://] in front when it lacks one and without a trailing
    [.json], the slashes removed. *)
Definition url_path_of_normalized (url : str) : result str :=
  path <- urlparse_path (removesuffix dot_json (with_https url)) ;;
  Ok (without_slashes path).

(** A path is rooted when it is empty or starts with a slash. *)
Definition rooted (path : str) : Prop :=
  path = [] \/ exists q, path = "/"%char :: q.

Lemma break_at_app p a c b :
  forallb (fun d => negb (p d)) a = true -> p c = true ->
  break_at p (a ++ c :: b) = (a, c :: b).
Proof.
  intros Ha Hc. induction a as [|d a IH]; simpl in *.
  - by rewrite Hc.
  - apply andb_true_iff in Ha as [Hd Ha]. apply negb_true_iff in Hd.
    by rewrite Hd, IH.
Qed.

Lemma break_at_fst_cons p c s :
  (break_at p (c :: s)).1 = if p c then [] else c :: (break_at p s).1.
Proof. simpl. destruct (p c); [done|]. by destruct (break_at p s). Qed.

(** Cutting the fragment and the query off what follows the host leaves a
    rooted path. *)
Lemma path_after_netloc rest :
  match rest with [] => True | c :: _ => ch_in c (lit "/?#") = true end ->
  rooted (break_at (ch_eqb "?") (break_at (ch_eqb "#") rest).1).1.
Proof.
  destruct rest as [|c rest]; [by left|]. intros Hc.
  unfold ch_in in Hc. simpl in Hc. rewrite !orb_true_iff, !ch_eqb_eq in Hc.
  destruct Hc as [->|[->|[->|?]]]; [| | |done].
  - right. rewrite (break_at_fst_cons (ch_eqb "#")).
    change (ch_eqb "#" "/") with false. cbv iota.
    rewrite (break_at_fst_cons (ch_eqb "?")). change (ch_eqb "?" "/") with false.
    cbv iota. eauto.
  - left. rewrite (break_at_fst_cons (ch_eqb "#")).
    change (ch_eqb "#" "?") with false. cbv iota.
    by rewrite (break_at_fst_cons (ch_eqb "?")).
  - left. by rewrite (break_at_fst_cons (ch_eqb "#")).
Qed.

Lemma splitparams_rooted path : rooted path -> rooted (splitparams path).
Proof.
  intros [->|[q ->]]; [by left|]. right. unfold splitparams.
  destruct (break_at (ch_eqb "/") (rev ("/"%char :: q))) as [last_rev dir_rev] eqn:Hb.
  apply break_at_spec in Hb as (Hrev & Hlast & Hdir).
  destruct dir_rev as [|d dir_rev].
  - exfalso. rewrite app_nil_r in Hrev. subst last_rev.
    rewrite forallb_forall in Hlast. specialize (Hlast "/"%char).
    rewrite ch_eqb_refl in Hlast. simpl in Hlast.
    assert (In "/"%char (rev ("/"%char :: q))) as Hin.
    { apply in_rev. rewrite rev_involutive. by left. }
    by specialize (Hlast Hin).
  - assert ("/"%char :: q = rev (d :: dir_rev) ++ rev last_rev) as Hq.
    { rewrite <-rev_app_distr, <-Hrev. by rewrite rev_involutive. }
    destruct (rev (d :: dir_rev)) as [|e dir] eqn:Hr.
    + apply (f_equal length) in Hr. rewrite length_rev in Hr. done.
    + simpl in Hq. injection Hq as <- _. simpl. eauto.
Qed.

(** The url behind [http://] or [https://] has a rooted path. *)
Lemma urlparse_path_rooted scheme x path :
  scheme = lit "http" \/ scheme = lit "https" ->
  urlparse_path (scheme ++ lit "://" ++ x) = Ok path -> rooted path.
Proof.
  intros Hs. unfold urlparse_path, urlsplit. rewrite !filter_app.
  set (x' := filter (λ c : ascii, negb (unsafe_char c)) x).
  assert (split_scheme (filter (λ c : ascii, negb (unsafe_char c)) scheme
                        ++ filter (λ c : ascii, negb (unsafe_char c)) (lit "://") ++ x')
          = (scheme, lit "//" ++ x')) as ->.
  { destruct Hs as [-> | ->]; reflexivity. }
  unfold split_netloc. change (startswith (lit "//") (lit "//" ++ x')) with true.
  change (drop 2 (lit "//" ++ x')) with x'. cbv iota.
  destruct (break_at (λ c : ascii, ch_in c (lit "/?#")) x') as [netloc rest] eqn:Hb.
  apply break_at_spec in Hb as (_ & _ & Hrest).
  destruct (_ || _); [done|]. simpl.
  pose proof (path_after_netloc rest Hrest) as Hrooted.
  destruct (_ && _); intros [= <-]; [by apply splitparams_rooted | done].
Qed.

Lemma with_https_form url :
  startswith (lit "http") url = false \/
  startswith (lit "http://") url = true \/ startswith (lit "https://") url = true ->
  exists scheme x,
    (scheme = lit "http" \/ scheme = lit "https") /\
    with_https url = scheme ++ lit "://" ++ x.
Proof.
  unfold with_https. intros [H|[H|H]].
  - rewrite H. simpl. exists (lit "https"), url. split; [by right | done].
  - apply startswith_spec in H as [x ->]. exists (lit "http"), x. split; [by left | done].
  - apply startswith_spec in H as [x ->]. exists (lit "https"), x. split; [by right | done].
Qed.

(** What [get_url] does to the path is the removal of the two slashes,
    when the path is rooted. *)
Lemma drop_rooted path : rooted path -> drop 1 path = removeprefix (lit "/") path.
Proof. by intros [->|[q ->]]. Qed.

Lemma take_last_slash s :
  match last s with
  | Some c => if ch_eqb c "/" then take (length s - 1) s else s
  | None => s
  end = removesuffix (lit "/") s.
Proof.
  unfold removesuffix, endswith. change (lit "/") with ["/"%char].
  destruct s as [|c s _] using rev_ind; [done|].
  rewrite last_snoc, rev_app_distr. cbn [rev app startswith length].
  unfold ch_eqb. rewrite (Ascii.eqb_sym "/" c), andb_true_r. done.
Qed.

Lemma get_url_eq url i res :
  get_url {| ur_index := i; ur_url := Some url; ur_response := res |}
  = (path <- urlparse_path (with_https url) ;;
     Ok (url, match last (drop 1 path) with
              | Some c => if ch_eqb c "/"
                          then take (length (drop 1 path) - 1) (drop 1 path)
                          else drop 1 path
              | None => drop 1 path
              end)).
Proof. reflexivity. Qed.

(** C9 as stated fails: for [https://example.com/a.json] the path of the
    record keeps the [.json] that the normalized url has lost. *)
Lemma get_url_keeps_json :
  let url := lit "https://example.com/a.json" in
  get_url {| ur_index := 0; ur_url := Some url; ur_response := None |}
    = Ok (url, lit "a.json") /\
  url_path_of_normalized url = Ok (lit "a") /\
  ~ (forall url,
       (p <- get_url {| ur_index := 0; ur_url := Some url; ur_response := None |} ;;
        Ok p.2)
       = url_path_of_normalized url).
Proof.
  split_and!; [reflexivity | reflexivity |].
  intros H. specialize (H (lit "https://example.com/a.json")). vm_compute in H.
  discriminate.
Qed.

(** C9, amended.  For a url that does not start with [http], or that
    starts with [http://] or [https://], [get_url] returns the url as it
    is, and as its path the path component of the url with [https://] in
    front when it did not start with [http] (a trailing [.json] is not
    stripped from it), with a single leading slash and a single trailing
    slash removed. *)
Theorem get_url_path (url : str) (i : nat) (res : option Response) :
  startswith (lit "http") url = false \/
  startswith (lit "http://") url = true \/ startswith (lit "https://") url = true ->
  get_url {| ur_index := i; ur_url := Some url; ur_response := res |}
  = (path <- urlparse_path (with_https url) ;; Ok (url, without_slashes path)).
Proof.
  intros Hform. rewrite get_url_eq.
  destruct (urlparse_path (with_https url)) as [path|e] eqn:Hpath; [|done].
  destruct (with_https_form url Hform) as (scheme & x & Hs & Hw).
  rewrite Hw in Hpath. apply urlparse_path_rooted in Hpath; [|done].
  unfold bind. rewrite take_last_slash. unfold without_slashes. by rewrite drop_rooted.
Qed.

Lemma get_url_path_witness :
  get_url {| ur_index := 0; ur_url := Some (lit "example.com/data/a.json/");
             ur_response := None |}
  = (path <- urlparse_path (with_https (lit "example.com/data/a.json/")) ;;
     Ok (lit "example.com/data/a.json/", without_slashes path)).
Proof. apply (get_url_path (lit "example.com/data/a.json/") 0 None). left. reflexivity. Defined.

Example get_url_example :
  get_url {| ur_index := 0; ur_url := Some (lit "example.com/data/a.json/");
             ur_response := None |}
  = Ok (lit "example.com/data/a.json/", lit "data/a.json").
Proof. reflexivity. Qed.

(** Outside these forms the first character that [get_url] drops need not
    be a slash. *)
Example get_url_no_host :
  get_url {| ur_index := 0; ur_url := Some (lit "httpbin.org/get"); ur_response := None |}
  = Ok (lit "httpbin.org/get", lit "ttpbin.org/get").
Proof. reflexivity. Qed.

End UrlPath.

(* ===================================================================== *)
(** * The Feature Extractor: one record per outcome                       *)
(* ===================================================================== *)

Section Records.
Import Py Collector.
Context (E : Env).

(** C6, at the input where it fails: for an outcome whose url is absent,
    a null of the url column, [parse_response] raises [AttributeError]
    instead of returning a record. *)
Theorem parse_response_absent_url_raises (i : nat) (res : option Response) :
  parse_response E {| ur_index := i; ur_url := None; ur_response := res |}
  = Raise AttributeError.
Proof. reflexivity. Qed.

(** The record of a url that is there and parses, for an outcome without
    a response: index, url, path, root page title, the code -1, and the
    other fields empty. *)
Lemma parse_response_no_response i url url_path :
  get_url {| ur_index := i; ur_url := Some url; ur_response := None |} = Ok (url, url_path) ->
  parse_response E {| ur_index := i; ur_url := Some url; ur_response := None |}
  = Ok (asdict {| tg_index := Some i; tg_url := url; tg_url_path := url_path;
                  tg_html_title := []; tg_meta_description := [];
                  tg_root_page_title := remove_excess_whitespace (get_title E url);
                  tg_http_response := -1;
                  tg_h1 := []; tg_h2 := []; tg_h3 := []; tg_h4 := []; tg_h5 := [];
                  tg_h6 := []; tg_div_text := [] |}).
Proof. intros H. unfold parse_response. by rewrite H. Qed.

End Records.

(* ===================================================================== *)
(** * One batch, and the batches in order                                 *)
(* ===================================================================== *)

Section MoreResults.

Lemma for_each_bind_map {A B C} (f : A -> result B) (g : B -> C) l :
  for_each (fun x => y <- f x ;; Ok (g y)) l = (ys <- for_each f l ;; Ok (g <$> ys)).
Proof.
  induction l as [|x l IH]; simpl; [done|].
  destruct (f x) as [y|e]; simpl; [|done]. rewrite IH.
  by destruct (for_each f l).
Qed.

Lemma for_each_imap {A B C} (G : nat -> A -> B) (f : B -> result C) (g : A -> result C) l :
  (forall i x, l !! i = Some x -> f (G i x) = g x) ->
  for_each f (imap G l) = for_each g l.
Proof.
  revert G. induction l as [|x l IH]; intros G H; simpl; [done|].
  rewrite (H 0%nat x eq_refl). rewrite (IH (G ∘ S)); [done|].
  intros i y Hi. by apply (H (S i)).
Qed.

End MoreResults.

Section Batches.
Import Py Collector.
Context (E : Env).

(** *** Sorting the outcomes by index restores the order of the urls *)

Definition by_index (a b : Outcome) : Prop := (index a <= index b)%nat.

Lemma insert_by_index_perm x l : insert_by_index x l ≡ₚ x :: l.
Proof.
  induction l as [|y l IH]; simpl; [done|].
  destruct (index x <=? index y)%nat; [done|]. rewrite IH. apply Permutation_swap.
Qed.

Lemma sort_by_index_perm l : sort_by_index l ≡ₚ l.
Proof.
  induction l as [|x l IH]; simpl; [done|]. rewrite insert_by_index_perm. by f_equiv.
Qed.

Lemma insert_by_index_sorted x l :
  StronglySorted by_index l -> StronglySorted by_index (insert_by_index x l).
Proof.
  induction 1 as [|y l Hl IH Hy]; simpl.
  - repeat constructor.
  - destruct (index x <=? index y)%nat eqn:Hxy.
    + apply Nat.leb_le in Hxy. constructor; [by constructor|].
      constructor; [done|]. eapply Forall_impl; [exact Hy|].
      intros z Hz. unfold by_index in *. lia.
    + apply Nat.leb_gt in Hxy. constructor; [done|].
      rewrite insert_by_index_perm. constructor; [unfold by_index; lia | done].
Qed.

Lemma sort_by_index_sorted l : StronglySorted by_index (sort_by_index l).
Proof.
  induction l as [|x l IH]; simpl; [constructor | by apply insert_by_index_sorted].
Qed.

Lemma outcomes_sorted_from n urls :
  StronglySorted by_index
    (imap (fun i url => {| index := n + i; response := fetched E url |}) urls).
Proof.
  revert n. induction urls as [|u urls IH]; intros n; [constructor|].
  rewrite imap_cons. constructor.
  - erewrite imap_ext; [apply (IH (S n))|]. intros i x _. simpl. f_equal. lia.
  - apply Forall_forall. intros o Ho.
    apply elem_of_lookup_imap in Ho as (i & x & -> & _). unfold by_index. simpl. lia.
Qed.

Lemma sort_gathered urls :
  gathers_all E -> sort_by_index (gather E (outcomes E urls)) = outcomes E urls.
Proof.
  intros Hg. apply (StronglySorted_unique_strong by_index).
  - intros x1 x2 H1 H2 H12 H21. rewrite sort_by_index_perm, (Hg _) in H1.
    unfold outcomes in *.
    apply elem_of_lookup_imap in H1 as (i & u & -> & Hi).
    apply elem_of_lookup_imap in H2 as (j & v & -> & Hj).
    unfold by_index in *. simpl in *. assert (i = j) as -> by lia. congruence.
  - apply sort_by_index_sorted.
  - apply (outcomes_sorted_from 0).
  - rewrite sort_by_index_perm. apply Hg.
Qed.

(** *** The entries of a batch *)

(** The entry of [process_urls] for the url at position [i]. *)
Definition entry (i : nat) (url : option str) : UrlResponse :=
  {| ur_index := i; ur_url := url; ur_response := fetched E (add_scheme url) |}.

Lemma zip_results urls :
  for_each (fun '(i, result) =>
              url <- list_getitem urls i ;;
              Ok {| ur_index := index result; ur_url := url;
                    ur_response := response result |})
           (imap pair (outcomes E (add_scheme <$> urls)))
  = Ok (imap entry urls).
Proof.
  rewrite (for_each_Ok _ (fun '(i, result) =>
             {| ur_index := index result; ur_url := default None (urls !! i);
                ur_response := response result |})).
  - f_equal. apply list_eq. intros i. unfold outcomes.
    rewrite list_lookup_fmap, !list_lookup_imap, list_lookup_fmap.
    destruct (urls !! i) as [u|] eqn:Hi; simpl; [by rewrite Hi | done].
  - intros [i result] Hin. apply elem_of_lookup_imap in Hin as (k & o & Heq & Hk).
    injection Heq as -> ->. unfold outcomes in Hk.
    rewrite list_lookup_imap, list_lookup_fmap in Hk.
    unfold list_getitem. destruct (urls !! k) as [u|]; [done | discriminate].
Qed.

(** The response of an entry after the Render Stage. *)
Definition render_response (res : option Response) : option Response :=
  match render_item E {| ur_index := 0; ur_url := None; ur_response := res |} with
  | Ok url_response => ur_response url_response
  | Raise _ => res
  end.

Lemma render_item_eq i url res :
  render_item E {| ur_index := i; ur_url := url; ur_response := res |}
  = Ok {| ur_index := i; ur_url := url; ur_response := render_response res |}.
Proof.
  unfold render_response, render_item. destruct res as [[r|c]|]; simpl.
  - destruct (negb (ok (Fetched r))); [done|].
    destruct (render_one_returns E r) as [html ->]. done.
  - by destruct (negb (ok (Reduced c))).
  - done.
Qed.

(** The row of the table for one url: fetch, render if asked, extract,
    drop the index. *)
Definition row_of (render_javascript : bool) (url : option str)
  : result (gmap string value) :=
  let res := fetched E (add_scheme url) in
  let res := if render_javascript then render_response res else res in
  tags <- parse_response E {| ur_index := 0; ur_url := url; ur_response := res |} ;;
  Ok (fill_null <$> delete "index"%string tags).

Lemma delete_index_asdict i u p ti m r c a1 a2 a3 a4 a5 a6 d :
  delete "index"%string (asdict (Build_Tags i u p ti m r c a1 a2 a3 a4 a5 a6 d))
  = delete "index"%string (asdict (Build_Tags None u p ti m r c a1 a2 a3 a4 a5 a6 d)).
Proof. unfold asdict. simpl list_to_map. by rewrite !delete_insert_eq. Qed.

(** Once the index is popped, the record does not depend on it. *)
Lemma parse_response_index {A} (k : gmap string value -> result A) i j url res :
  (tags <- parse_response E {| ur_index := i; ur_url := url; ur_response := res |} ;;
   k (delete "index"%string tags))
  = (tags <- parse_response E {| ur_index := j; ur_url := url; ur_response := res |} ;;
     k (delete "index"%string tags)).
Proof.
  unfold parse_response. cbn [ur_index ur_url ur_response].
  change (get_url {| ur_index := i; ur_url := url; ur_response := res |})
    with (get_url {| ur_index := j; ur_url := url; ur_response := res |}).
  destruct (get_url _) as [[u url_path]|e]; [|done].
  cbn [bind].
  destruct (verify_response res) as [verified http_response].
  assert (forall i u p ti m r c a1 a2 a3 a4 a5 a6 d j,
    bind (Ok (asdict (Build_Tags i u p ti m r c a1 a2 a3 a4 a5 a6 d)))
         (fun t => k (delete "index"%string t))
    = bind (Ok (asdict (Build_Tags j u p ti m r c a1 a2 a3 a4 a5 a6 d)))
         (fun t => k (delete "index"%string t))) as Hd.
  { intros. cbn [bind]. apply (f_equal k).
    etrans; [apply delete_index_asdict | symmetry; apply delete_index_asdict]. }
  destruct verified; [|apply Hd].
  destruct res as [res|]; [|apply Hd].
  destruct (get_parser res) as [prs|]; [|apply Hd].
  destruct (html <- html_text res ;; BeautifulSoup E html prs) as [soup|e]; cycle 1.
  { destruct e; try done; apply Hd. }
  unfold get_header_tags, header_tags.
  cbn [foldl set_header tg_index tg_url tg_url_path tg_html_title tg_meta_description
       tg_root_page_title tg_http_response tg_h1 tg_h2 tg_h3 tg_h4 tg_h5 tg_h6
       tg_div_text new_Tags].
  apply Hd.
Qed.

(** [process_urls] makes the rows of its urls, one by one and in the
    order of the urls. *)
Lemma process_urls_rows urls render_javascript :
  gathers_all E ->
  process_urls E urls render_javascript = for_each (row_of render_javascript) urls.
Proof.
  intros Hg. unfold process_urls.
  rewrite run_get_response_outcomes. cbn [bind].
  rewrite sort_gathered by done. rewrite zip_results. cbn [bind].
  set (stage := fun i url =>
         {| ur_index := i; ur_url := url;
            ur_response := if render_javascript
                           then render_response (fetched E (add_scheme url))
                           else fetched E (add_scheme url) |}).
  assert ((if render_javascript then render_js E (imap entry urls)
           else Ok (imap entry urls)) = Ok (imap stage urls)) as ->.
  { destruct render_javascript; [|done]. unfold render_js.
    rewrite (for_each_Ok _ (fun ur =>
               {| ur_index := ur_index ur; ur_url := ur_url ur;
                  ur_response := render_response (ur_response ur) |})).
    - f_equal. by rewrite fmap_imap.
    - intros [i u r] _. apply render_item_eq. }
  cbn [bind].
  transitivity (for_each (fun ur => tags <- parse_response E ur ;;
                                    Ok (fill_null <$> delete "index"%string tags))
                         (imap stage urls)).
  - rewrite for_each_bind_map. destruct (for_each _ _); [|done]. cbn [bind].
    f_equal. by rewrite <-list_fmap_compose.
  - apply for_each_imap. intros i x _. unfold row_of, stage.
    apply (parse_response_index (fun d => Ok (fill_null <$> d))).
Qed.


(** *** The batches *)





End Batches.


(* ===================================================================== *)
(** * The Common Crawl manager                                            *)
(* ===================================================================== *)

Section CrawlId.
Import Py Crawler.

(** A crawl id begins with [CC-MAIN-], four digits, a dash and two
    digits. *)
Definition begins_with_crawl_id (s : str) : Prop :=
  exists year week rest,
    length year = 4%nat /\ length week = 2%nat /\
    Forall (fun c => is_digit c = true) year /\
    Forall (fun c => is_digit c = true) week /\
    s = lit "CC-MAIN-" ++ year ++ lit "-" ++ week ++ rest.

Lemma re_match_chars l pattern s :
  re_match ((Char <$> l) ++ pattern) s = true <->
  exists t, s = l ++ t /\ re_match pattern t = true.
Proof.
  revert s. induction l as [|c l IH]; intros s.
  - simpl. split; [eauto | by intros (t & -> & ?)].
  - destruct s as [|d s]; simpl.
    + split; [done | by intros (t & ? & _)].
    + rewrite andb_true_iff, ch_eqb_eq, IH. split.
      * intros [-> (t & -> & Ht)]. eauto.
      * intros (t & [= -> ->] & Ht). eauto.
Qed.

Lemma re_match_digits n pattern s :
  re_match (replicate n Digit ++ pattern) s = true <->
  exists d t, length d = n /\ Forall (fun c => is_digit c = true) d /\
              s = d ++ t /\ re_match pattern t = true.
Proof.
  revert s. induction n as [|n IH]; intros s.
  - simpl. split.
    + intros H. by exists [], s.
    + intros (d & t & Hd & _ & -> & Ht). by destruct d.
  - destruct s as [|c s]; simpl.
    + split; [done|]. intros (d & t & Hd & _ & Hs & _). by destruct d.
    + rewrite andb_true_iff, IH. split.
      * intros [Hc (d & t & Hd & HF & -> & Ht)].
        exists (c :: d), t. split_and!; [by rewrite <-Hd | by constructor | done | done].
      * intros ([|c' d] & t & Hd & HF & Hs & Ht); [done|].
        simpl in Hs, Hd. injection Hs as -> ->. injection Hd as Hd.
        inversion_clear HF. split; [done|]. by exists d, t.
Qed.

(** [re.match] with the pattern of the source decides it. *)
Lemma re_match_crawl_id s :
  re_match crawl_id_pattern s = true <-> begins_with_crawl_id s.
Proof.
  unfold crawl_id_pattern, begins_with_crawl_id.
  rewrite re_match_chars. setoid_rewrite re_match_digits.
  change [Char "-"%char] with (Char <$> lit "-").
  setoid_rewrite re_match_chars.
  setoid_rewrite <-(app_nil_r (replicate 2 Digit)).
  setoid_rewrite re_match_digits. split.
  - intros (t & -> & year & t1 & Hy & HFy & -> & t2 & -> & week & rest & Hw & HFw & -> & _).
    by exists year, week, rest.
  - intros (year & week & rest & Hy & Hw & HFy & HFw & ->).
    eexists. split; [done|]. exists year. eexists. split_and!; [done..|].
    eexists. split; [done|]. exists week, rest. done.
Qed.

End CrawlId.

Section Crawl.
Import Py Crawler.
Context (X : Index).

(** The exceptions that a search of the index can raise: those of the
    request itself, of the decoding of a line, of a record without url. *)
Definition from_index (e : exn) : Prop :=
  (exists rq, requests_get X rq = NoReply e) \/ e = JSONDecodeError \/ e = KeyError.

Lemma for_each_Raise {A B} (f : A -> result B) l e :
  for_each f l = Raise e -> exists x, x ∈ l /\ f x = Raise e.
Proof.
  induction l as [|x l IH]; simpl; [done|].
  destruct (f x) as [y|e'] eqn:Hx; simpl.
  - destruct (for_each f l) as [ys|e'']; simpl; [done|].
    intros [= ->]. destruct (IH eq_refl) as (z & Hz & Hfz). exists z. split; [by right | done].
  - intros [= ->]. exists x. split; [by left | done].
Qed.

Lemma mbind_eq {A B} (m : M A) (k : A -> M B) w :
  mbind m k w = match m w with
                | (Ok a, w') => k a w'
                | (Raise e, w') => (Raise e, w')
                end.
Proof. reflexivity. Qed.

Lemma search_spec root url page w r w' :
  search_common_crawl_index X root url page w = (r, w') ->
  cache w' = cache w /\ stored w' = stored w /\
  events w' = Search {| rq_root_url := root; rq_url := url; rq_page := page |} :: events w /\
  (forall e, r = Raise e -> from_index e).
Proof.
  unfold search_common_crawl_index, mbind, emit, raise, ret, lift. simpl.
  destruct (requests_get X _) as [status_code text|e0] eqn:Hrq.
  - destruct (status_code =? 200).
    + destruct (for_each _ _) as [parsed|e0] eqn:Hp; intros [= <- <-];
        (split_and!; [done..|]); [done|].
      intros e [= <-]. apply for_each_Raise in Hp as (x & _ & Hx).
      destruct (json_loads X x); [done|]. injection Hx as <-. right. by left.
    + intros [= <- <-]. by split_and!.
  - intros [= <- <-]. split_and!; [done..|]. intros e [= <-]. left. eauto.
Qed.



End Crawl.

(** An index server that is never reached, for [crawl] with a bad id. *)
Definition silent_index : Crawler.Index :=
  {| Crawler.requests_get := fun _ => Crawler.NoReply ConnectionError;
     Crawler.json_loads := fun _ => None |}.

Definition empty_world : Crawler.World :=
  {| Crawler.cache := ∅; Crawler.stored := ∅; Crawler.events := [] |}.

Example crawl_bad_ids :
  Crawler.crawl silent_index (lit "CC-MAIN-2023-5") (lit "*.gov") (lit "police") 2 empty_world
  = (Raise (ValueError "Invalid crawl_id"), empty_world) /\
  Crawler.crawl silent_index (lit "xCC-MAIN-2023-50") (lit "*.gov") (lit "police") 2 empty_world
  = (Raise (ValueError "Invalid crawl_id"), empty_world) /\
  fst (Crawler.crawl silent_index (lit "CC-MAIN-2023-50-extra") (lit "*.gov") (lit "police") 2
         empty_world)
  = Raise ConnectionError.
Proof. split_and!; reflexivity. Qed.

(* ===================================================================== *)
(** * More on the Fetch Engine: the retries                               *)
(* ===================================================================== *)

Section Retries.
Import Py Collector.
Context (E : Env).

(** What the [finally] clause makes of a response that an attempt
    obtained for the task [index]. *)
Definition finish (r : HTMLResponse) (index : nat) : result Outcome :=
  response <- response_valid (Some (Fetched r)) (hr_headers r !! content_type_key) None ;;
  Ok {| index := index; response := response |}.

Lemma response_valid_url response content_type url url' :
  response_valid response content_type url = response_valid response content_type url'.
Proof. reflexivity. Qed.

Lemma get_response_try url i :
  get_response E url i
  = match try_get E (removesuffix dot_json <$> url) with
    | (_, Some r, _) => finish r i
    | (_, None, _) => Ok {| index := i; response := None |}
    end.
Proof.
  unfold get_response, finish.
  destruct (try_get E (removesuffix dot_json <$> url)) as [[url' [r|]] in_flight]; done.
Qed.




(** X5.  A response that leaves the Fetch Engine with its payload is a
    usable one: its body has at most 10,000,000 bytes, its status is not
    an error code, and its content type has none of the filtered types. *)
Theorem get_response_usable (url : option str) (i : nat) (outcome : Outcome)
    (r : HTMLResponse) :
  get_response E url i = Ok outcome ->
  response outcome = Some (Fetched r) ->
  len (hr_content r) <= 10000000 /\ ok (Fetched r) = true /\
  (forall ct, hr_headers r !! content_type_key = Some ct -> unreadable_type ct = false).
Proof.
  rewrite get_response_try.
  destruct (try_get E (removesuffix dot_json <$> url)) as [[url' [r'|]] in_flight];
    cycle 1.
  { by intros [= <-]. }
  unfold finish.
  destruct (response_valid_fetched r' (hr_headers r' !! content_type_key) None)
    as (b & Hb & ->).
  cbn [bind]. intros [= <-]. cbn [response]. destruct b; [done|]. intros [= ->].
  assert (~ discardable r (hr_headers r !! content_type_key)) as Hn.
  { intros Hd. apply Hb in Hd. done. }
  unfold discardable in Hn. split_and!.
  - lia.
  - destruct (ok (Fetched r)); [done | tauto].
  - intros ct Hct. destruct (unreadable_type ct) eqn:Hu; [|done].
    apply unreadable_type_spec in Hu. rewrite Hct in Hn. tauto.
Qed.

End Retries.

Section JsonSuffix.
Import Py Collector.

Lemma endswith_app p u : endswith p (u ++ p) = true.
Proof. unfold endswith. rewrite rev_app_distr. apply startswith_app. Qed.

Lemma removesuffix_app p u : removesuffix p (u ++ p) = u.
Proof.
  unfold removesuffix. destruct p as [|c p]; [by rewrite app_nil_r|].
  rewrite endswith_app, length_app.
  replace (length u + length (c :: p) - length (c :: p))%nat with (length u) by lia.
  apply take_app_length.
Qed.

Lemma removesuffix_other p u : endswith p u = false -> removesuffix p u = u.
Proof. unfold removesuffix. intros ->. by destruct p. Qed.

(** X4.  The [.json] at the end of a url is taken off before the request,
    once: a url [u.json] is fetched as [u] is, for every [u] that does not
    itself end in [.json]. *)
Theorem get_response_json_suffix (E : Env) (u : str) (i : nat) :
  endswith dot_json u = false ->
  get_response E (Some (u ++ dot_json)) i = get_response E (Some u) i.
Proof.
  intros Hu. unfold get_response. cbn [fmap option_fmap option_map].
  by rewrite removesuffix_app, removesuffix_other.
Qed.

End JsonSuffix.




Lemma get_response_usable_witness :
  let r := Example.page 200 "<html><h1>Example Domain</h1></html>" in
  Py.len (Collector.hr_content r) <= 10000000 /\ Collector.ok (Collector.Fetched r) = true /\
  (forall ct, Collector.hr_headers r !! Collector.content_type_key = Some ct ->
              Collector.unreadable_type ct = false).
Proof.
  apply (get_response_usable Example.env (Some (lit "https://example.com/a")) 0
           {| Collector.index := 0;
              Collector.response :=
                Some (Collector.Fetched
                        (Example.page 200 "<html><h1>Example Domain</h1></html>")) |});
    reflexivity.
Defined.

Lemma get_response_json_suffix_witness :
  Collector.get_response Example.env (Some (lit "https://example.com/a" ++ Collector.dot_json)) 0
  = Collector.get_response Example.env (Some (lit "https://example.com/a")) 0.
Proof. apply (get_response_json_suffix Example.env (lit "https://example.com/a") 0). reflexivity. Defined.

(* ===================================================================== *)
(** * More on the Render Stage                                            *)
(* ===================================================================== *)

Section Rendering.
Import Py Collector.
Context (E : Env).

(** The response with another text for its page. *)
Definition with_html (r : HTMLResponse) (html : str) : HTMLResponse :=
  {| hr_status_code := hr_status_code r; hr_headers := hr_headers r;
     hr_content := hr_content r; hr_html := html |}.

Lemma poll_rounds task :
  exists t cancel_called,
    poll polling_rounds task 0 = Some (t, cancel_called) /\
    (t <= 151)%nat /\
    (cancel_called = true -> t = 151%nat) /\
    (cancel_called = false -> done task t = true).
Proof.
  destruct (poll_enough task polling_rounds 0) as (t & c & Hp & Ht & Hc & Hd);
    [lia | unfold polling_rounds; lia |].
  exists t, c. split_and!; [done | lia | done | done].
Qed.

(** X7.  A render task that is done after at most 151 sleeps of the
    polling loop gives the response its rendered page, the task that
    finishes during the very sleep after which the loop cancels included;
    one that would need more is cancelled, and the response keeps the page
    that was fetched. *)
Theorem render_one_completes (r : HTMLResponse) (polls : nat) (html : str) :
  arender E r = Completes polls html ->
  render_one E r = Ok (if (polls <=? 151)%nat then with_html r html else r).
Proof.
  intros Ha. unfold render_one. rewrite Ha.
  destruct (poll_rounds (Completes polls html)) as (t & c & -> & Ht & Hc & Hd).
  unfold await_task. cbn [done] in *. destruct c; cbn [andb].
  - rewrite (Hc eq_refl). by destruct (polls <=? 151)%nat.
  - specialize (Hd eq_refl). apply Nat.leb_le in Hd.
    assert ((polls <=? 151)%nat = true) as -> by (apply Nat.leb_le; lia). done.
Qed.

(** X8.  A render task that ends with an exception, whichever it is,
    does not make the Render Stage raise, and leaves the response as it
    was fetched. *)
Theorem render_one_breaks (r : HTMLResponse) (polls : nat) (e : exn) :
  arender E r = Breaks polls e -> render_one E r = Ok r.
Proof.
  intros Ha. unfold render_one. rewrite Ha.
  destruct (poll_rounds (Breaks polls e)) as (t & c & -> & _).
  unfold await_task. destruct (c && negb (done (Breaks polls e) t)); [done|].
  by destruct e.
Qed.

(** X6.  [render_js] never raises.  It returns the entries it was given,
    as many and in the same order, each with its index and url; the status
    code, the headers and the body of a response are never changed; and an
    entry without a response, with an error status or with a reduced
    response is returned as it is. *)
Theorem render_js_shape (urls_responses : list UrlResponse) :
  exists rendered,
    render_js E urls_responses = Ok rendered /\
    length rendered = length urls_responses /\
    forall i ur, urls_responses !! i = Some ur ->
      exists ur',
        rendered !! i = Some ur' /\
        ur_index ur' = ur_index ur /\ ur_url ur' = ur_url ur /\
        status_code <$> ur_response ur' = status_code <$> ur_response ur /\
        headers <$> ur_response ur' = headers <$> ur_response ur /\
        content <$> ur_response ur' = content <$> ur_response ur /\
        (match ur_response ur with
         | Some (Fetched r) => ok (Fetched r) = false
         | _ => True
         end -> ur' = ur).
Proof.
  destruct (render_js E urls_responses) as [rendered|e] eqn:Hr; cycle 1.
  { unfold render_js in Hr. apply for_each_Raise in Hr as (x & _ & Hx).
    destruct (render_item_returns E x) as [res Hres]. congruence. }
  exists rendered. split; [done|]. split; [by apply for_each_length in Hr|].
  intros i ur Hi. unfold render_js in Hr.
  destruct (for_each_lookup _ _ _ _ _ Hr Hi) as (ur' & Hi' & Hitem).
  exists ur'. split; [done|]. unfold render_item in Hitem.
  destruct ur as [idx u [[r|c]|]]; cbn [ur_response ur_index ur_url] in *.
  - destruct (ok (Fetched r)) eqn:Hok; cbn [negb] in Hitem.
    + destruct (render_one_returns E r) as [html Hone]. rewrite Hone in Hitem.
      cbn [bind] in Hitem. injection Hitem as <-. by split_and!.
    + injection Hitem as <-. by split_and!.
  - destruct (negb (ok (Reduced c))); injection Hitem as <-; by split_and!.
  - injection Hitem as <-. by split_and!.
Qed.

End Rendering.

(** A world as [Example.env], where pages render: the page of status 200
    is rendered after 151 sleeps, the others break with a [PageError]. *)
Definition rendering_env : Collector.Env :=
  {| Collector.session_get := Collector.session_get Example.env;
     Collector.gather := Collector.gather Example.env;
     Collector.arender := fun r =>
       if Collector.hr_status_code r =? 200
       then Collector.Completes 151 (lit "<html><h1>Rendered</h1></html>")
       else Collector.Breaks 3 PageError;
     Collector.get_title := Collector.get_title Example.env;
     Collector.BeautifulSoup := Collector.BeautifulSoup Example.env |}.

Lemma render_one_completes_witness :
  Collector.render_one rendering_env (Example.page 200 "<html></html>")
  = Ok (if (151 <=? 151)%nat
        then with_html (Example.page 200 "<html></html>") (lit "<html><h1>Rendered</h1></html>")
        else Example.page 200 "<html></html>").
Proof.
  apply (render_one_completes rendering_env (Example.page 200 "<html></html>") 151
           (lit "<html><h1>Rendered</h1></html>")).
  reflexivity.
Defined.

Lemma render_one_breaks_witness :
  Collector.render_one rendering_env (Example.page 404 "Not Found")
  = Ok (Example.page 404 "Not Found").
Proof.
  apply (render_one_breaks rendering_env (Example.page 404 "Not Found") 3 PageError).
  reflexivity.
Defined.

(* ===================================================================== *)
(** * More on the Feature Extractor                                       *)
(* ===================================================================== *)

Section RecordsMore.
Import Py Collector.
Context (E : Env).

(** The record of an outcome that is not parsed. *)
Definition bare_tags (i : nat) (url url_path : str) (res : option Response) : Tags :=
  {| tg_index := Some i; tg_url := url; tg_url_path := url_path;
     tg_html_title := []; tg_meta_description := [];
     tg_root_page_title := remove_excess_whitespace (get_title E url);
     tg_http_response := match res with Some r => status_code r | None => -1 end;
     tg_h1 := []; tg_h2 := []; tg_h3 := []; tg_h4 := []; tg_h5 := []; tg_h6 := [];
     tg_div_text := [] |}.

(** X9.  For an outcome without a response, or whose response has an
    error status, or no content type, or a content type with neither
    [html] nor [xml] in it (a reduced response has none), the record has
    the index, the url, its path, the root page title and the status code
    (-1 without a response), and every extracted field is empty: the
    markup of such a response is not parsed. *)
Theorem parse_response_unparsed (i : nat) (url url_path : str) (res : option Response) :
  get_url {| ur_index := i; ur_url := Some url; ur_response := res |} = Ok (url, url_path) ->
  match res with
  | Some r => ok r = false \/ get_parser r = None
  | None => True
  end ->
  parse_response E {| ur_index := i; ur_url := Some url; ur_response := res |}
  = Ok (asdict (bare_tags i url url_path res)) /\
  (forall c, get_parser (Reduced c) = None).
Proof.
  intros Hurl Hres. split; [|done]. unfold parse_response. rewrite Hurl.
  cbn [bind ur_response ur_index]. unfold verify_response.
  destruct res as [r|]; [|done].
  destruct (ok r) eqn:Hok; cbn [negb]; [|done].
  destruct Hres as [?|Hp]; [done|]. by rewrite Hp.
Qed.

(** X10.  Every record that [parse_response] returns has the index and
    the url of its outcome, and as its code the status code of the
    response, -1 when there is none. *)
Theorem parse_response_keys (url_response : UrlResponse) (tags : gmap string value) :
  parse_response E url_response = Ok tags ->
  tags !! "index"%string = Some (VInt (Z.of_nat (ur_index url_response))) /\
  (exists url, ur_url url_response = Some url /\ tags !! "url"%string = Some (VStr url)) /\
  tags !! "http_response"%string
  = Some (VInt (match ur_response url_response with
                | Some r => status_code r
                | None => -1
                end)).
Proof.
  destruct url_response as [i [url|] res]; [|done].
  unfold parse_response. cbn [ur_index ur_url ur_response].
  rewrite get_url_eq. destruct (urlparse_path (with_https url)) as [path|e]; [|done].
  cbn [bind].
  assert (forall p ti m r c a1 a2 a3 a4 a5 a6 d t,
    Ok (asdict (Build_Tags (Some i) url p ti m r c a1 a2 a3 a4 a5 a6 d)) = Ok t ->
    t !! "index"%string = Some (VInt (Z.of_nat i)) /\
    (exists u, Some url = Some u /\ t !! "url"%string = Some (VStr u)) /\
    t !! "http_response"%string = Some (VInt c)) as Hk.
  { intros ? ? ? ? ? ? ? ? ? ? ? ? t [= <-]. split_and!; [done | by exists url | done]. }
  unfold verify_response. destruct res as [r|]; cycle 1. { apply Hk. }
  destruct (ok r); cbn [negb]; cycle 1. { apply Hk. }
  destruct (get_parser r) as [prs|]; cycle 1. { apply Hk. }
  destruct (html <- html_text r ;; BeautifulSoup E html prs) as [soup|e]; cycle 1.
  { destruct e; try done; apply Hk. }
  unfold get_header_tags, header_tags.
  cbn [foldl set_header tg_index tg_url tg_url_path tg_html_title tg_meta_description
       tg_root_page_title tg_http_response tg_h1 tg_h2 tg_h3 tg_h4 tg_h5 tg_h6
       tg_div_text new_Tags].
  apply Hk.
Qed.

(** The columns of the table of a batch. *)
Definition columns : gset string :=
  list_to_set ["url"; "url_path"; "html_title"; "meta_description"; "root_page_title";
               "http_response"; "h1"; "h2"; "h3"; "h4"; "h5"; "h6"; "div_text"]%string.

Lemma row_of_columns render_javascript url row :
  row_of E render_javascript url = Ok row ->
  dom row = columns /\ map_Forall (fun _ v => v <> VNone) row.
Proof.
  unfold row_of, parse_response. cbn [ur_index ur_url ur_response].
  destruct url as [u|]; [|done]. rewrite get_url_eq.
  destruct (urlparse_path (with_https u)) as [path|e]; [|done]. cbn [bind].
  assert (forall i u p ti m r c a1 a2 a3 a4 a5 a6 d t,
    Ok (fill_null <$> delete "index"%string
          (asdict (Build_Tags i u p ti m r c a1 a2 a3 a4 a5 a6 d))) = Ok t ->
    dom t = columns /\ map_Forall (fun _ v => v <> VNone) t) as Hk.
  { intros ? ? ? ? ? ? ? ? ? ? ? ? ? ? t [= <-]. split.
    - rewrite dom_fmap_L, dom_delete_L. unfold asdict. cbn [list_to_map foldr uncurry].
      rewrite !dom_insert_L, dom_empty_L. unfold columns. set_solver.
    - intros k v. rewrite lookup_fmap. intros Hv Hnone. subst v.
      by destruct (delete "index"%string _ !! k) as [[]|]. }
  destruct (verify_response _) as [verified http_response].
  destruct verified; cycle 1. { apply Hk. }
  destruct (if render_javascript then _ else _) as [res|]; cycle 1. { apply Hk. }
  destruct (get_parser res) as [prs|]; cycle 1. { apply Hk. }
  destruct (html <- html_text res ;; BeautifulSoup E html prs) as [soup|e]; cycle 1.
  { destruct e; try done; apply Hk. }
  unfold get_header_tags, header_tags.
  cbn [foldl set_header tg_index tg_url tg_url_path tg_html_title tg_meta_description
       tg_root_page_title tg_http_response tg_h1 tg_h2 tg_h3 tg_h4 tg_h5 tg_h6
       tg_div_text new_Tags bind].
  apply Hk.
Qed.

(** X11.  The rows of the table of a batch all have the same thirteen
    columns, the index not among them, and no cell of them is null. *)
Theorem process_urls_columns (urls : list (option str)) (render_javascript : bool)
    (rows : list (gmap string value)) :
  gathers_all E ->
  process_urls E urls render_javascript = Ok rows ->
  length rows = length urls /\
  Forall (fun row => dom row = columns /\ map_Forall (fun _ v => v <> VNone) row) rows.
Proof.
  intros Hg. rewrite process_urls_rows by done. intros Hrows.
  split; [by apply for_each_length in Hrows|].
  apply Forall_lookup. intros i row Hi.
  assert (i < length urls)%nat as Hlt.
  { apply for_each_length in Hrows. rewrite <-Hrows. by apply lookup_lt_Some in Hi. }
  apply lookup_lt_is_Some in Hlt as [url Hu].
  destruct (for_each_lookup _ _ _ _ _ Hrows Hu) as (row' & Hi' & Hrow).
  rewrite Hi in Hi'. injection Hi' as <-. by apply row_of_columns in Hrow.
Qed.

(** X14.  A batch with an absent url, a null of the url column, makes
    [process_urls] raise [AttributeError] once the urls before it have
    made their rows; [collector_main] then returns the frame it was
    given, not a table of features. *)
Theorem process_urls_absent_url (before after : list (option str))
    (render_javascript : bool) (rows : list (gmap string value)) :
  gathers_all E ->
  for_each (row_of E render_javascript) before = Ok rows ->
  process_urls E (before ++ None :: after) render_javascript = Raise AttributeError /\
  collector_main E (before ++ None :: after) render_javascript
  = UrlFrame (before ++ None :: after).
Proof.
  intros Hg Hrows.
  assert (process_urls E (before ++ None :: after) render_javascript
          = Raise AttributeError) as Hp.
  { rewrite process_urls_rows by done.
    revert rows Hrows. induction before as [|u before IH]; intros rows; simpl.
    - done.
    - destruct (row_of E render_javascript u) as [row|e]; cbn [bind]; [|done].
      destruct (for_each (row_of E render_javascript) before) as [rows'|e] eqn:Hb;
        cbn [bind]; [|done].
      intros _. by rewrite (IH rows'). }
  split; [done|]. unfold collector_main. by rewrite Hp.
Qed.

End RecordsMore.

Section DivTextMore.
Import Py Collector.

(** The words of the divs, counted div by div. *)
Definition total_words (divs : list str) : Z :=
  foldr (fun text n => len (split text) + n) 0 divs.

Lemma len_nonneg {A} (l : list A) : 0 <= len l.
Proof. unfold len. lia. Qed.

Lemma div_loop_all div_text divs :
  len (split div_text) + total_words divs <= MAX_WORDS ->
  div_loop div_text divs = div_text ++ concat (whole <$> divs).
Proof.
  revert div_text. induction divs as [|text divs IH]; intros div_text; simpl total_words.
  - intros _. simpl. by rewrite app_nil_r.
  - intros H. destruct text as [|c text].
    + simpl. apply IH. change (len (split [])) with 0 in H. lia.
    + rewrite div_loop_cons by done.
      assert (0 <= total_words divs) as Hnn.
      { clear. induction divs as [|t divs IH]; simpl; [done|].
        pose proof (len_nonneg (split t)). lia. }
      destruct (len (split div_text) + len (split (c :: text)) <=? MAX_WORDS) eqn:Hc;
        cycle 1. { apply Z.leb_gt in Hc. lia. }
      rewrite IH.
      * rewrite fmap_cons, concat_cons, whole_cons. by rewrite <-!app_assoc.
      * pose proof (len_split_append div_text (c :: text)). lia.
Qed.

(** X13.  When the divs have at most 500 words between them, and their
    texts with a space after each at most 5000 characters, nothing is
    left out: the text of the divs is all of them, in order, the empty
    ones skipped, each followed by a space. *)
Theorem get_div_text_all (soup : Soup) :
  total_words (soup_divs soup) <= 500 ->
  len (concat (whole <$> soup_divs soup)) <= 5000 ->
  get_div_text soup = concat (whole <$> soup_divs soup).
Proof.
  intros Hw Hc. unfold get_div_text. rewrite div_loop_all by done.
  apply take_ge. unfold len in Hc. simpl. change (Z.to_nat (MAX_WORDS * 10)) with 5000%nat. lia.
Qed.

End DivTextMore.

Lemma parse_response_unparsed_witness :
  Collector.parse_response Example.env
    {| Collector.ur_index := 2; Collector.ur_url := Some (lit "gone.example/b");
       Collector.ur_response := Some (Collector.Reduced 404) |}
  = Ok (Collector.asdict (bare_tags Example.env 2 (lit "gone.example/b") (lit "b")
                            (Some (Collector.Reduced 404)))) /\
  (forall c, Collector.get_parser (Collector.Reduced c) = None).
Proof.
  apply (parse_response_unparsed Example.env 2 (lit "gone.example/b") (lit "b")
           (Some (Collector.Reduced 404))); [reflexivity | by left].
Defined.

Lemma parse_response_keys_witness :
  exists tags,
    Collector.parse_response Example.env
      {| Collector.ur_index := 0; Collector.ur_url := Some (lit "https://example.com/a");
         Collector.ur_response :=
           Some (Collector.Fetched (Example.page 200 "<html></html>")) |} = Ok tags /\
    tags !! "index"%string = Some (Collector.VInt 0) /\
    (exists url, Some (lit "https://example.com/a") = Some url /\
                 tags !! "url"%string = Some (Collector.VStr url)) /\
    tags !! "http_response"%string = Some (Collector.VInt 200).
Proof.
  eexists. split; [reflexivity|].
  apply (parse_response_keys Example.env
           {| Collector.ur_index := 0; Collector.ur_url := Some (lit "https://example.com/a");
              Collector.ur_response :=
                Some (Collector.Fetched (Example.page 200 "<html></html>")) |}).
  reflexivity.
Defined.

Lemma process_urls_columns_witness :
  let urls := [Some (lit "https://example.com/a"); Some (lit "gone.example/b")] in
  exists rows,
    Collector.process_urls Example.env urls false = Ok rows /\
    length rows = length urls /\
    Forall (fun row => dom row = columns /\
                       map_Forall (fun _ v => v <> Collector.VNone) row) rows.
Proof.
  intros urls.
  destruct (Collector.process_urls Example.env urls false) as [rows|e] eqn:Hrows.
  - exists rows. split; [done|].
    exact (process_urls_columns Example.env urls false rows example_gathers_all Hrows).
  - by vm_compute in Hrows.
Defined.

Lemma process_urls_absent_url_witness :
  Collector.process_urls Example.env ([Some (lit "https://example.com/a")] ++ None :: []) true
  = Raise AttributeError /\
  Collector.collector_main Example.env ([Some (lit "https://example.com/a")] ++ None :: []) true
  = Collector.UrlFrame ([Some (lit "https://example.com/a")] ++ None :: []).
Proof.
  destruct (for_each (row_of Example.env true) [Some (lit "https://example.com/a")])
    as [rows|e] eqn:Hrows; [|by vm_compute in Hrows].
  exact (process_urls_absent_url Example.env [Some (lit "https://example.com/a")] [] true
           rows example_gathers_all Hrows).
Defined.

Lemma get_div_text_all_witness :
  Collector.get_div_text Example.example_soup
  = concat (whole <$> Collector.soup_divs Example.example_soup).
Proof. apply (get_div_text_all Example.example_soup); by vm_compute. Defined.

(* ===================================================================== *)
(** * The whitespace of titles and descriptions                           *)
(* ===================================================================== *)

Section Whitespace.
Import Py Collector.

(** A word is a string that is not empty and has no whitespace. *)
Definition word (w : str) : Prop :=
  w <> [] /\ Forall (fun c => isspace c = false) w.

Lemma split_from_words acc s :
  Forall (fun c => isspace c = false) acc -> Forall word (split_from acc s).
Proof.
  revert acc. induction s as [|c s IH]; intros acc Hacc; simpl.
  - destruct acc as [|a acc]; [constructor|]. constructor; [|constructor]. split.
    + intros H. apply (f_equal length) in H. rewrite length_rev in H. done.
    + by apply Forall_rev.
  - destruct (isspace c) eqn:Hc.
    + destruct acc as [|a acc]; [by apply IH|]. constructor; [|by apply IH]. split.
      * intros H. apply (f_equal length) in H. rewrite length_rev in H. done.
      * by apply Forall_rev.
    + apply IH. by constructor.
Qed.

Lemma split_words s : Forall word (split s).
Proof. by apply split_from_words. Qed.

Lemma split_from_app acc x rest :
  Forall (fun c => isspace c = false) x ->
  split_from acc (x ++ rest) = split_from (rev x ++ acc) rest.
Proof.
  revert acc. induction x as [|c x IH]; intros acc Hx; [done|].
  inversion_clear Hx as [|? ? Hc Hx']. simpl. rewrite Hc, IH by done.
  by rewrite <-app_assoc.
Qed.

Lemma split_word_then x rest :
  word x -> split (x ++ " "%char :: rest) = x :: split rest.
Proof.
  intros [Hne Hx]. unfold split. rewrite split_from_app, app_nil_r by done. simpl.
  destruct (rev x) as [|c r] eqn:Hr.
  - apply (f_equal length) in Hr. rewrite length_rev in Hr. by destruct x.
  - by rewrite <-Hr, rev_involutive.
Qed.

Lemma split_word x : word x -> split x = [x].
Proof.
  intros [Hne Hx]. unfold split. rewrite <-(app_nil_r x) at 1.
  rewrite split_from_app, app_nil_r by done. simpl.
  destruct (rev x) as [|c r] eqn:Hr.
  - apply (f_equal length) in Hr. rewrite length_rev in Hr. by destruct x.
  - by rewrite <-Hr, rev_involutive.
Qed.

Lemma join_cons_cons sep x y l : join sep (x :: y :: l) = x ++ sep ++ join sep (y :: l).
Proof. done. Qed.

(** Splitting what was joined with single spaces gives the words back. *)
Lemma split_join ws : Forall word ws -> split (join (lit " ") ws) = ws.
Proof.
  induction ws as [|x ws IH]; intros Hws; [done|].
  inversion_clear Hws as [|? ? Hx Hws']. destruct ws as [|y ws].
  - by apply split_word.
  - rewrite join_cons_cons. change (lit " " ++ join (lit " ") (y :: ws))
      with (" "%char :: join (lit " ") (y :: ws)).
    rewrite split_word_then by done. by rewrite IH.
Qed.

(** A string has clean ends when neither its first nor its last character
    is whitespace. *)
Definition clean_ends (s : str) : Prop :=
  match head s with Some c => isspace c = false | None => True end /\
  match last s with Some c => isspace c = false | None => True end.

Lemma strip_clean_ends s : clean_ends s -> strip s = s.
Proof.
  intros [Hh Hl]. unfold strip.
  assert (lstrip s = s) as ->.
  { destruct s as [|c s]; [done|]. simpl in *. by rewrite Hh. }
  unfold rstrip. destruct s as [|c s _] using rev_ind; [done|].
  rewrite last_snoc in Hl. rewrite rev_app_distr. simpl. rewrite Hl.
  change (c :: rev s) with (rev [c] ++ rev s). by rewrite <-rev_app_distr, rev_involutive.
Qed.

Lemma word_clean_ends x : word x -> clean_ends x.
Proof.
  intros [_ Hx]. rewrite Forall_forall in Hx. split.
  - destruct (head x) as [c|] eqn:Hc; [|done]. by apply Hx, head_Some_elem_of.
  - destruct (last x) as [c|] eqn:Hc; [|done]. by apply Hx, last_Some_elem_of.
Qed.

Lemma join_clean_ends ws : Forall word ws -> clean_ends (join (lit " ") ws).
Proof.
  induction ws as [|x ws IH]; intros Hws; [done|].
  inversion_clear Hws as [|? ? Hx Hws']. destruct ws as [|y ws].
  - by apply word_clean_ends.
  - rewrite join_cons_cons. specialize (IH Hws') as [_ Hl].
    destruct (word_clean_ends x Hx) as [Hh _]. destruct Hx as [Hne _]. split.
    + by destruct x.
    + rewrite !last_app. destruct (last (join (lit " ") (y :: ws))) as [c|] eqn:Hc; [done|].
      apply last_None in Hc. inversion_clear Hws' as [|? ? [Hy _] _].
      destruct ws; simpl in Hc; [done|]. by destruct y.
Qed.

(** X12.  [remove_excess_whitespace] returns the words of the string with
    one space between them and no whitespace at the ends; it keeps the
    words as they are, and applying it twice changes nothing more. *)
Theorem remove_excess_whitespace_words (s : str) :
  remove_excess_whitespace s = join (lit " ") (split s) /\
  split (remove_excess_whitespace s) = split s /\
  clean_ends (remove_excess_whitespace s) /\
  remove_excess_whitespace (remove_excess_whitespace s) = remove_excess_whitespace s.
Proof.
  assert (remove_excess_whitespace s = join (lit " ") (split s)) as Heq.
  { unfold remove_excess_whitespace. apply strip_clean_ends, join_clean_ends, split_words. }
  assert (split (remove_excess_whitespace s) = split s) as Hsplit.
  { rewrite Heq. apply split_join, split_words. }
  split_and!; [done | done | |].
  - rewrite Heq. apply join_clean_ends, split_words.
  - unfold remove_excess_whitespace at 1. rewrite Hsplit.
    fold (remove_excess_whitespace s). by rewrite Heq at 2.
Qed.

Example remove_excess_whitespace_example :
  remove_excess_whitespace (lit "  Example    Domain ") = lit "Example Domain".
Proof. reflexivity. Qed.

End Whitespace.

(* ===================================================================== *)
(** * More on the Common Crawl manager: pages, cursor, results            *)
(* ===================================================================== *)

Section CrawlMore.
Import Py Crawler.
Context (X : Index) (crawl_id search_term keyword : str).

Let k : key := (crawl_id, search_term, keyword).

(** The request of [crawl] for a page. *)
Definition request_of (page : Z) : Request :=
  {| rq_root_url := root_url crawl_id; rq_url := search_term; rq_page := page |}.

(** A result of this crawl, on a page with [Q]. *)
Definition result_of (Q : Z -> Prop) (u : UrlResults) : Prop :=
  res_index u = crawl_id /\ res_search_term u = search_term /\
  res_keyword u = keyword /\ Q (res_page u) /\
  exists pre post, res_url u = pre ++ keyword ++ post.

Lemma get_urls_with_keyword_in records urls :
  get_urls_with_keyword records keyword = Ok urls ->
  Forall (fun u => exists pre post, u = pre ++ keyword ++ post) urls.
Proof.
  unfold get_urls_with_keyword. destruct (for_each _ records) as [us|e]; [|done].
  cbn [bind]. intros [= <-]. apply Forall_forall. intros u Hu.
  apply list_elem_of_filter in Hu as [Hu _]. by apply str_in_spec.
Qed.

(** What the loop over the pages keeps. *)
Lemma crawl_pages_inv (Q : Z -> Prop) pages results w r w' p0 :
  cache w !! k = Some p0 ->
  Forall Q pages -> Forall (result_of Q) results ->
  crawl_pages X crawl_id search_term keyword pages results w = (r, w') ->
  exists searched p,
    searched `prefix_of` pages /\
    events w' = rev (Search ∘ request_of <$> searched) ++ events w /\
    (is_Ok r = true -> searched = pages) /\
    stored w' = stored w /\
    cache w' !! k = Some p /\ (p = p0 \/ p ∈ searched) /\
    (forall k', k' <> k -> cache w' !! k' = cache w !! k') /\
    (forall out, r = Ok out -> Forall (result_of Q) out).
Proof.
  revert results w r w' p0.
  induction pages as [|page pages IH]; intros results w r w' p0 Hp0 HQ Hres; simpl.
  - unfold ret. intros [= <- <-]. exists [], p0.
    split_and!; [done | done | done | done | done | by left | done |].
    by intros out [= <-].
  - inversion_clear HQ as [|? ? HQp HQ'].
    rewrite mbind_eq.
    destruct (search_common_crawl_index X (root_url crawl_id) search_term page w)
      as [rs w1] eqn:Hs.
    apply search_spec in Hs as (Hc & Hst & Hev & _).
    assert (forall e, exists searched p,
      searched `prefix_of` page :: pages /\
      events w1 = rev (Search ∘ request_of <$> searched) ++ events w /\
      (is_Ok (@Raise (list UrlResults) e) = true -> searched = page :: pages) /\
      stored w1 = stored w /\
      cache w1 !! k = Some p /\ (p = p0 \/ p ∈ searched) /\
      (forall k', k' <> k -> cache w1 !! k' = cache w !! k') /\
      (forall out, @Raise (list UrlResults) e = Ok out -> Forall (result_of Q) out))
      as Hstop.
    { intros e. exists [page], p0.
      split_and!; [by exists pages | done | done | done | by rewrite Hc | by left
                  | by intros; rewrite Hc | done]. }
    assert (forall results' w2 p2,
      Forall (result_of Q) results' ->
      events w2 = events w1 -> stored w2 = stored w1 ->
      cache w2 !! k = Some p2 -> (p2 = p0 \/ p2 = page) ->
      (forall k', k' <> k -> cache w2 !! k' = cache w !! k') ->
      crawl_pages X crawl_id search_term keyword pages results' w2 = (r, w') ->
      exists searched p,
        searched `prefix_of` page :: pages /\
        events w' = rev (Search ∘ request_of <$> searched) ++ events w /\
        (is_Ok r = true -> searched = page :: pages) /\
        stored w' = stored w /\
        cache w' !! k = Some p /\ (p = p0 \/ p ∈ searched) /\
        (forall k', k' <> k -> cache w' !! k' = cache w !! k') /\
        (forall out, r = Ok out -> Forall (result_of Q) out)) as Hnext.
    { intros results' w2 p2 Hres' Hev2 Hst2 Hp2 Hp2' Hk2 H.
      destruct (IH _ _ _ _ _ Hp2 HQ' Hres' H)
        as (searched & p & Hpre & Hevs & Hall & Hs' & Hp & Hpin & Hk' & Hout).
      exists (page :: searched), p. split_and!.
      - by apply prefix_cons.
      - rewrite Hevs, Hev2, Hev. rewrite fmap_cons. simpl. by rewrite <-app_assoc.
      - intros Hok. by rewrite Hall.
      - congruence.
      - done.
      - destruct Hpin as [->|Hin]; [|right; by right].
        destruct Hp2' as [->| ->]; [by left | right; by left].
      - intros k' Hne. rewrite Hk' by done. by apply Hk2.
      - done. }
    destruct rs as [records|e]; cycle 1.
    { intros [= <- <-]. apply Hstop. }
    assert (cache w1 !! k = Some p0) as Hp1 by (by rewrite Hc).
    assert (forall k', k' <> k -> cache w1 !! k' = cache w !! k') as Hk1
      by (by intros; rewrite Hc).
    destruct records as [[|record records]|].
    + apply (Hnext results w1 p0); [done | done | done | done | by left | done].
    + unfold mbind, lift, set_last_page.
      destruct (get_urls_with_keyword (record :: records) keyword) as [urls|e] eqn:Hk.
      * apply (Hnext _ _ page); [| done | done | | by right |].
        -- apply Forall_app. split; [done|]. apply Forall_fmap.
           apply get_urls_with_keyword_in in Hk.
           eapply Forall_impl; [exact Hk|]. intros u Hu. by split_and!.
        -- cbn [cache]. apply lookup_insert_eq.
        -- intros k' Hne. cbn [cache]. rewrite lookup_insert_ne by done. by apply Hk1.
      * intros [= <- <-]. apply Hstop.
    + apply (Hnext results w1 p0); [done | done | done | done | by left | done].
Qed.

(** What [crawl] does with an id that passes the check, from a world
    where the cursor is at [last_page]. *)
Lemma crawl_valid num_pages w r w' last_page :
  begins_with_crawl_id crawl_id ->
  cache w !! k = Some last_page ->
  crawl X crawl_id search_term keyword num_pages w = (r, w') ->
  exists r1 w1,
    crawl_pages X crawl_id search_term keyword (seqZ (last_page + 1) num_pages) []
      {| cache := cache w; stored := stored w; events := CacheGet k :: events w |}
    = (r1, w1) /\
    match r1 with
    | Ok results =>
        r = Ok results /\
        w' = {| cache := cache w1; stored := cache w1; events := SaveCache :: events w1 |}
    | Raise e => r = Raise e /\ w' = w1
    end.
Proof.
  intros Hb Hk Hc. apply re_match_crawl_id in Hb. unfold k in *.
  unfold crawl in Hc. rewrite Hb in Hc. cbn [negb] in Hc.
  rewrite mbind_eq in Hc. unfold cache_get in Hc. rewrite mbind_eq in Hc.
  unfold emit in Hc. cbn [cache stored events] in Hc. rewrite Hk in Hc.
  rewrite mbind_eq in Hc.
  destruct (crawl_pages X crawl_id search_term keyword (seqZ (last_page + 1) num_pages) [] _)
    as [r1 w1] eqn:Hp.
  exists r1, w1. split; [done|]. destruct r1 as [results|e].
  - unfold mbind, save_cache, emit, ret in Hc. by injection Hc as <- <-.
  - by injection Hc as <- <-.
Qed.

(** X15.  With an id that passes the check, [crawl] reads the cursor,
    then asks the index for the pages after it, [last_page + 1],
    [last_page + 2], ..., in this order and each once, as far as
    [num_pages] pages or until a search raises; it saves the cache
    when, and only when, no search has raised. *)
Theorem crawl_searches (num_pages : Z) (w : World) (r : result (list UrlResults))
    (w' : World) (last_page : Z) :
  begins_with_crawl_id crawl_id ->
  cache w !! (crawl_id, search_term, keyword) = Some last_page ->
  crawl X crawl_id search_term keyword num_pages w = (r, w') ->
  exists searched,
    searched `prefix_of` seqZ (last_page + 1) num_pages /\
    (is_Ok r = true -> searched = seqZ (last_page + 1) num_pages) /\
    events w'
    = (if is_Ok r then [SaveCache] else [])
      ++ rev (Search ∘ request_of <$> searched)
      ++ CacheGet (crawl_id, search_term, keyword) :: events w.
Proof.
  intros Hb Hk Hc.
  destruct (crawl_valid _ _ _ _ _ Hb Hk Hc) as (r1 & w1 & Hp & Hr).
  apply (crawl_pages_inv (fun _ => True) _ _ _ _ _ last_page) in Hp
    as (searched & p & Hpre & Hev & Hall & _);
    [| done | by apply Forall_true | done].
  exists searched. cbn [events] in Hev.
  destruct r1 as [results|e]; destruct Hr as [-> ->]; cbn [is_Ok events] in *.
  - split_and!; [done | done | by rewrite Hev].
  - split_and!; [done | done | by rewrite Hev].
Qed.

(** X16.  The cursor of a crawl never moves back: after [crawl] it is at
    [last_page] still or at one of the pages searched, so at most
    [num_pages] further; the cursors of the other crawls are as they
    were; and the storage holds the new cursors when [crawl] returns,
    the old ones when it raises. *)
Theorem crawl_cursor (num_pages : Z) (w : World) (r : result (list UrlResults))
    (w' : World) (last_page : Z) :
  begins_with_crawl_id crawl_id ->
  cache w !! (crawl_id, search_term, keyword) = Some last_page ->
  crawl X crawl_id search_term keyword num_pages w = (r, w') ->
  exists p,
    cache w' !! (crawl_id, search_term, keyword) = Some p /\
    last_page <= p <= last_page + Z.max num_pages 0 /\
    (forall k', k' <> (crawl_id, search_term, keyword) -> cache w' !! k' = cache w !! k') /\
    stored w' = if is_Ok r then cache w' else stored w.
Proof.
  intros Hb Hk Hc.
  destruct (crawl_valid _ _ _ _ _ Hb Hk Hc) as (r1 & w1 & Hp & Hr).
  apply (crawl_pages_inv (fun _ => True) _ _ _ _ _ last_page) in Hp
    as (searched & p & [rest Hpre] & _ & _ & Hst & Hcp & Hpin & Hk' & _);
    [| done | by apply Forall_true | done].
  exists p. cbn [cache stored] in *.
  assert (last_page <= p <= last_page + Z.max num_pages 0) as Hrange.
  { destruct Hpin as [->|Hin]; [lia|].
    assert (p ∈ seqZ (last_page + 1) num_pages) as Hin'.
    { rewrite Hpre. apply elem_of_app. by left. }
    apply elem_of_seqZ in Hin'. lia. }
  destruct r1 as [results|e]; destruct Hr as [-> ->]; cbn [is_Ok cache stored];
    split_and!; (done || lia).
Qed.

(** X17.  Every result that [crawl] returns carries the crawl id, the
    search term and the keyword it was called with, a page among the
    pages asked for, and a url in which the keyword occurs. *)
Theorem crawl_results (num_pages : Z) (w : World) (results : list UrlResults)
    (w' : World) (last_page : Z) :
  begins_with_crawl_id crawl_id ->
  cache w !! (crawl_id, search_term, keyword) = Some last_page ->
  crawl X crawl_id search_term keyword num_pages w = (Ok results, w') ->
  Forall (result_of (fun page => last_page < page <= last_page + num_pages)) results.
Proof.
  intros Hb Hk Hc.
  destruct (crawl_valid _ _ _ _ _ Hb Hk Hc) as (r1 & w1 & Hp & Hr).
  apply (crawl_pages_inv (fun page => last_page < page <= last_page + num_pages)
           _ _ _ _ _ last_page) in Hp
    as (_ & _ & _ & _ & _ & _ & _ & _ & _ & Hout); [| done | | done].
  - destruct r1 as [out|e]; destruct Hr as [Hr _]; [|done].
    injection Hr as <-. by apply Hout.
  - apply Forall_forall. intros page Hin. apply elem_of_seqZ in Hin. lia.
Qed.

(** X18.  A 200 reply with a blank body is not taken for "no records":
    its only line is the empty string, which is handed to the decoder, and
    when the decoder rejects it, as [json.loads] does, [crawl] raises
    [JSONDecodeError], with the cursors and the storage as they were. *)
Theorem crawl_blank_reply (num_pages : Z) (w : World) (last_page : Z) (text : str) :
  begins_with_crawl_id crawl_id ->
  cache w !! (crawl_id, search_term, keyword) = Some last_page ->
  0 < num_pages ->
  requests_get X (request_of (last_page + 1)) = Reply 200 text ->
  strip text = [] ->
  json_loads X [] = None ->
  crawl X crawl_id search_term keyword num_pages w
  = (Raise JSONDecodeError,
     {| cache := cache w; stored := stored w;
        events := Search (request_of (last_page + 1))
                  :: CacheGet (crawl_id, search_term, keyword) :: events w |}).
Proof.
  intros Hb Hk Hn Hrq Hstrip Hjson.
  destruct (crawl X crawl_id search_term keyword num_pages w) as [r w'] eqn:Hc.
  destruct (crawl_valid _ _ _ _ _ Hb Hk Hc) as (r1 & w1 & Hp & Hr).
  rewrite seqZ_cons in Hp by done. cbn [crawl_pages] in Hp.
  rewrite mbind_eq in Hp. unfold search_common_crawl_index in Hp.
  rewrite mbind_eq in Hp. unfold emit in Hp. cbn [cache stored events] in Hp.
  fold (request_of (last_page + 1)) in Hp. rewrite Hrq in Hp.
  change (200 =? 200) with true in Hp. cbv iota in Hp.
  rewrite Hstrip in Hp. change (split_on newline []) with [@nil ascii] in Hp.
  rewrite mbind_eq in Hp. unfold lift in Hp. cbn [for_each] in Hp. rewrite Hjson in Hp.
  cbn [bind] in Hp. injection Hp as <- <-. by destruct Hr as [-> ->].
Qed.

End CrawlMore.

(** An index with three pages for every search: two records, a page that
    is not there, and a blank page. *)
Definition example_index : Crawler.Index :=
  {| Crawler.requests_get := fun rq =>
       if Crawler.rq_page rq =? 1
       then Crawler.Reply 200 (lit "rec1" ++ [Crawler.newline] ++ lit "rec2")
       else if Crawler.rq_page rq =? 2 then Crawler.Reply 404 (lit "No Captures found")
       else Crawler.Reply 200 (lit " ");
     Crawler.json_loads := fun line =>
       if bool_decide (line = lit "rec1")
       then Some {[ Crawler.url_key := lit "https://police.example.gov/a" ]}
       else if bool_decide (line = lit "rec2")
       then Some {[ Crawler.url_key := lit "https://example.gov/b" ]}
       else None |}.

Definition example_id : str := lit "CC-MAIN-2023-50".
Definition example_term : str := lit "*.gov".
Definition example_keyword : str := lit "police".

(** A world where the cursor of the example crawl is at page [p]. *)
Definition world_at (p : Z) : Crawler.World :=
  {| Crawler.cache := {[ (example_id, example_term, example_keyword) := p ]};
     Crawler.stored := ∅; Crawler.events := [] |}.

Lemma example_id_valid : begins_with_crawl_id example_id.
Proof. apply re_match_crawl_id. reflexivity. Qed.

Lemma crawl_searches_witness :
  let out := Crawler.crawl example_index example_id example_term example_keyword 2
               (world_at 0) in
  exists searched,
    searched `prefix_of` seqZ (0 + 1) 2 /\
    (is_Ok out.1 = true -> searched = seqZ (0 + 1) 2) /\
    Crawler.events out.2
    = (if is_Ok out.1 then [Crawler.SaveCache] else [])
      ++ rev (Crawler.Search ∘ request_of example_id example_term <$> searched)
      ++ Crawler.CacheGet (example_id, example_term, example_keyword)
         :: Crawler.events (world_at 0).
Proof.
  intros out.
  apply (crawl_searches example_index example_id example_term example_keyword 2
           (world_at 0) out.1 out.2 0 example_id_valid); [reflexivity | apply surjective_pairing].
Defined.

Lemma crawl_cursor_witness :
  let out := Crawler.crawl example_index example_id example_term example_keyword 2
               (world_at 0) in
  exists p,
    Crawler.cache out.2 !! (example_id, example_term, example_keyword) = Some p /\
    0 <= p <= 0 + Z.max 2 0 /\
    (forall k', k' <> (example_id, example_term, example_keyword) ->
                Crawler.cache out.2 !! k' = Crawler.cache (world_at 0) !! k') /\
    Crawler.stored out.2
    = if is_Ok out.1 then Crawler.cache out.2 else Crawler.stored (world_at 0).
Proof.
  intros out.
  apply (crawl_cursor example_index example_id example_term example_keyword 2
           (world_at 0) out.1 out.2 0 example_id_valid); [reflexivity | apply surjective_pairing].
Defined.

Lemma crawl_results_witness :
  exists results w',
    Crawler.crawl example_index example_id example_term example_keyword 2 (world_at 0)
    = (Ok results, w') /\
    Forall (result_of example_id example_term example_keyword
              (fun page => 0 < page <= 0 + 2)) results.
Proof.
  destruct (Crawler.crawl example_index example_id example_term example_keyword 2
              (world_at 0)) as [[results|e] w'] eqn:Hc; [|by vm_compute in Hc].
  exists results, w'. split; [done|].
  apply (crawl_results example_index example_id example_term example_keyword 2
           (world_at 0) results w' 0 example_id_valid); [reflexivity | exact Hc].
Defined.

Lemma crawl_blank_reply_witness :
  Crawler.crawl example_index example_id example_term example_keyword 1 (world_at 2)
  = (Raise JSONDecodeError,
     {| Crawler.cache := Crawler.cache (world_at 2);
        Crawler.stored := Crawler.stored (world_at 2);
        Crawler.events :=
          Crawler.Search (request_of example_id example_term (2 + 1))
          :: Crawler.CacheGet (example_id, example_term, example_keyword)
          :: Crawler.events (world_at 2) |}).
Proof.
  apply (crawl_blank_reply example_index example_id example_term example_keyword 1
           (world_at 2) 2 (lit " ") example_id_valid); [reflexivity | lia | reflexivity..].
Defined.

Example crawl_example :
  fst (Crawler.crawl example_index example_id example_term example_keyword 2 (world_at 0))
  = Ok [ {| Crawler.res_index := example_id;
            Crawler.res_url := lit "https://police.example.gov/a";
            Crawler.res_search_term := example_term; Crawler.res_page := 1;
            Crawler.res_keyword := example_keyword |} ].
Proof. reflexivity. Qed.
